(** * Token lifecycle, request executor, deduplication and cache-aside
      fetchers of the Sankhya API layer (src/lib/sankhya-api.ts and
      src/lib/produtos-service.ts), shallowly embedded. *)

From Stdlib Require Import ZArith Lia.
From stdpp Require Import base gmap strings list pretty.
From Stdlib Require Import Ascii.

(* ===================================================================== *)
(** ** Token manager: [obterToken] of src/lib/sankhya-api.ts              *)
(* ===================================================================== *)

(** [obterToken] is an [async] function: every [await] is a suspension
    point at which another caller in the same process may run.  The model
    is a small-step interleaving semantics: each caller is a thread whose
    program counter names the [await] it is suspended at, and one step runs
    a thread from one suspension point to the next.  The Shared Cache Store
    (Redis behind [getCacheService]), the module variable [tokenPromise],
    the clock ([Date.now()]) and the number of login calls issued are the
    shared world.  Cache operations are assumed not to throw. *)

Module TokenManager.
Local Open Scope Z_scope.

(** [interface TokenCache] *)
Record TokenCache := mkTokenCache {
  token : string;
  expiresAt : Z;   (* timestamp in milliseconds *)
  geradoEm : Z
}.

Inductive AuthError :=
| LockTimeout          (* "Não foi possível gerar token - timeout ao aguardar lock" *)
| ServiceUnavailable   (* "Serviço Sankhya temporariamente indisponível..." *)
| AuthFailed.          (* "Falha na autenticação Sankhya: ..." *)

(** Outcome of one awaited [obterToken] promise. *)
Inductive Res :=
| RToken (t : string)
| RErr (e : AuthError).

(** What [axiosInstance.post(ENDPOINT_LOGIN, ...)] produces. *)
Inductive LoginOutcome :=
| LoginOk (t : string)          (* [resposta.data.bearerToken || resposta.data.token] *)
| LoginNoToken                  (* a 2xx answer without a token *)
| LoginHttpError (status : Z)   (* [erro.response.status] *)
| LoginNetError.                (* no [erro.response] *)

Definition LOCK_TTL : Z := 30000.
Definition MAX_LOCK_WAIT : Z := 25000.
Definition LOCK_POLL : Z := 500.
Definition MAX_RETRIES : nat := 3.
Definition RETRY_DELAY : Z := 1000.
Definition TOKEN_TTL : Z := 20 * 60.               (* seconds, passed to set *)
Definition TOKEN_VALIDITY : Z := 20 * 60 * 1000.   (* milliseconds *)

(** Modelled from the spec: the [set(key, value, ttlSeconds)] operation of
    the Shared Cache Store (the wrapper [redis-cache-wrapper] is not under
    src/).  An entry written at [now] with a time-to-live of [ttlSeconds]
    seconds is evicted at this instant (milliseconds). *)
Definition evict_instant (now ttlSeconds : Z) : Z := now + ttlSeconds * 1000.

Record World := mkWorld {
  clock : Z;                                 (* Date.now() *)
  tokenSlot : option (TokenCache * Z);       (* 'sankhya:token', eviction instant *)
  lockSlot : option (Z * Z);                 (* 'sankhya:token:lock', eviction instant *)
  tokenPromise : option nat;                 (* the module variable, by promise id *)
  promises : gmap nat Res;                   (* settled renewal promises *)
  nextPromise : nat;
  logins : nat                               (* login calls issued so far *)
}.

Definition set_clock (c : Z) (w : World) : World :=
  mkWorld c (tokenSlot w) (lockSlot w) (tokenPromise w) (promises w) (nextPromise w) (logins w).
Definition set_tokenSlot (s : option (TokenCache * Z)) (w : World) : World :=
  mkWorld (clock w) s (lockSlot w) (tokenPromise w) (promises w) (nextPromise w) (logins w).
Definition set_lockSlot (s : option (Z * Z)) (w : World) : World :=
  mkWorld (clock w) (tokenSlot w) s (tokenPromise w) (promises w) (nextPromise w) (logins w).
Definition set_tokenPromise (p : option nat) (w : World) : World :=
  mkWorld (clock w) (tokenSlot w) (lockSlot w) p (promises w) (nextPromise w) (logins w).
Definition set_promises (ps : gmap nat Res) (w : World) : World :=
  mkWorld (clock w) (tokenSlot w) (lockSlot w) (tokenPromise w) ps (nextPromise w) (logins w).

(** [cacheService.get<TokenCache>(TOKEN_CACHE_KEY)]: evicted entries read
    as [null]. *)
Definition get_token (w : World) : option TokenCache :=
  match tokenSlot w with
  | Some (td, ev) => if clock w <? ev then Some td else None
  | None => None
  end.

(** [cacheService.get(LOCK_KEY)] is truthy. *)
Definition lock_present (w : World) : bool :=
  match lockSlot w with
  | Some (_, ev) => clock w <? ev
  | None => false
  end.

(** The check repeated at every read of the token:
    [if (tokenData && tokenData.token) { ... if (tempoRestante > 0) ... }]
    with [tempoRestante = tokenData.expiresAt - agora]. *)
Definition token_valido (v : option TokenCache) (agora : Z) : option string :=
  match v with
  | Some td =>
      if negb (String.eqb (token td) EmptyString) && (0 <? expiresAt td - agora)
      then Some (token td) else None
  | None => None
  end.

(** Suspension points of one [obterToken(forceRefresh, retryCount)] call. *)
Inductive Pc :=
| PStart                                    (* entry, before the fast-path read *)
| PTokenRead (v : option TokenCache)        (* resumed with the fast-path read *)
| PLockRead (lockStart : Z) (existing : bool)  (* resumed with get(LOCK_KEY) *)
| PSleeping (lockStart : Z) (wake : Z)      (* the 500 ms wait of the lock loop *)
| PRecheckRead (lockStart : Z) (v : option TokenCache)  (* re-read while waiting *)
| PTimeoutRead (v : option TokenCache)      (* final read after MAX_LOCK_WAIT *)
| PLockSet                                  (* resumed after set(LOCK_KEY) *)
| PDoubleCheck (v : option TokenCache)      (* read after acquiring the lock *)
| PLogin (p : nat) (n : nat)                (* renewal p awaiting login call n *)
| PBackoff (wake : Z)                       (* RETRY_DELAY * (retryCount + 1) *)
| PAwait (p : nat)                          (* [return tokenPromise] of another call *)
| PDone (r : Res).

Record Thread := mkThread {
  pc : Pc;
  forceRefresh : bool;
  retryCount : nat;
  owed : list nat   (* renewal promises whose result is this call's result *)
}.

Definition with_pc (th : Thread) (q : Pc) : Thread :=
  mkThread q (forceRefresh th) (retryCount th) (owed th).

Section Semantics.

(** The answer of the [n]-th login call. *)
Variable login_outcome : nat -> LoginOutcome.

(** A call settles with [r]: every renewal promise it stands for settles
    with [r] as well (a retried renewal adopts the recursive call). *)
Definition finish (w : World) (th : Thread) (r : Res) : World * Thread :=
  (set_promises (fold_left (fun ps p => <[p := r]> ps) (owed th) (promises w)) w,
   mkThread (PDone r) (forceRefresh th) (retryCount th) []).

(** Head of the [while (!lockAcquired && Date.now() - lockStart < MAX_LOCK_WAIT)]
    loop: either issue [get(LOCK_KEY)] or give up and re-read the token. *)
Definition lock_loop (w : World) (th : Thread) (lockStart : Z) : World * Thread :=
  if clock w - lockStart <? MAX_LOCK_WAIT
  then (w, with_pc th (PLockRead lockStart (lock_present w)))
  else (w, with_pc th (PTimeoutRead (get_token w))).

(** [tokenPromise = (async () => { ... })()]: the body runs up to the
    awaited login request, which is issued here. *)
Definition start_login (w : World) (th : Thread) : World * Thread :=
  let p := nextPromise w in
  (mkWorld (clock w) (tokenSlot w) (lockSlot w) (Some p) (promises w)
           (S p) (S (logins w)),
   mkThread (PLogin p (logins w)) (forceRefresh th) (retryCount th) (p :: owed th)).

Definition is_500 (o : LoginOutcome) : bool :=
  match o with LoginHttpError s => s =? 500 | _ => false end.

(** One step of a caller, from the suspension point it is at to the next. *)
Definition step_thread (w : World) (th : Thread) : World * Thread :=
  match pc th with
  | PStart =>
      (* if (forceRefresh) await cacheService.delete(TOKEN_CACHE_KEY);
         let tokenData = await cacheService.get(TOKEN_CACHE_KEY) *)
      let w1 := if forceRefresh th then set_tokenSlot None w else w in
      (w1, with_pc th (PTokenRead (get_token w1)))
  | PTokenRead v =>
      match token_valido v (clock w), forceRefresh th with
      | Some t, false => finish w th (RToken t)
      | _, _ =>
          (* if (tokenPromise) return tokenPromise; *)
          match tokenPromise w with
          | Some p => (w, with_pc th (PAwait p))
          | None => lock_loop w th (clock w)
          end
      end
  | PLockRead ls existing =>
      if negb existing
      then (* await cacheService.set(LOCK_KEY, lockValue, LOCK_TTL) *)
        (set_lockSlot (Some (clock w, evict_instant (clock w) LOCK_TTL)) w,
         with_pc th PLockSet)
      else (w, with_pc th (PSleeping ls (clock w + LOCK_POLL)))
  | PSleeping ls wake =>
      if wake <=? clock w then (w, with_pc th (PRecheckRead ls (get_token w)))
      else (w, th)
  | PRecheckRead ls v =>
      match token_valido v (clock w) with
      | Some t => finish (set_lockSlot None w) th (RToken t)
      | None => lock_loop w th ls
      end
  | PTimeoutRead v =>
      match token_valido v (clock w) with
      | Some t => finish w th (RToken t)
      | None => finish w th (RErr LockTimeout)
      end
  | PLockSet =>
      if negb (forceRefresh th) then (w, with_pc th (PDoubleCheck (get_token w)))
      else start_login w th
  | PDoubleCheck v =>
      match token_valido v (clock w) with
      | Some t => finish (set_lockSlot None w) th (RToken t)
      | None => start_login w th
      end
  | PLogin p n =>
      match login_outcome n with
      | LoginOk t =>
          (* save {token, expiresAt: now + 20 min} with TTL 20 * 60, release
             the lock; finally: tokenPromise = null, release the lock *)
          let td := mkTokenCache t (clock w + TOKEN_VALIDITY) (clock w) in
          let w1 := set_tokenSlot (Some (td, evict_instant (clock w) TOKEN_TTL)) w in
          finish (set_tokenPromise None (set_lockSlot None w1)) th (RToken t)
      | o =>
          let w1 := set_lockSlot None w in
          if is_500 o && Nat.ltb (retryCount th) MAX_RETRIES
          then (w1, with_pc th (PBackoff (clock w + RETRY_DELAY * Z.of_nat (S (retryCount th)))))
          else
            let e := if is_500 o then ServiceUnavailable else AuthFailed in
            finish (set_tokenPromise None (set_tokenSlot None w1)) th (RErr e)
      end
  | PBackoff wake =>
      if wake <=? clock w
      then (* tokenPromise = null; return obterToken(forceRefresh, retryCount + 1);
              the enclosing finally then runs: tokenPromise = null, release lock *)
        (set_lockSlot None (set_tokenPromise None w),
         mkThread PStart (forceRefresh th) (S (retryCount th)) (owed th))
      else (w, th)
  | PAwait p =>
      match promises w !! p with
      | Some r => finish w th r
      | None => (w, th)
      end
  | PDone _ => (w, th)
  end.

(** The scheduler: run one caller for a step, or let time pass. *)
Inductive Action :=
| Run (i : nat)
| Tick (d : Z).

Definition act (c : World * list Thread) (a : Action) : World * list Thread :=
  match a with
  | Run i =>
      match c.2 !! i with
      | Some th => let r := step_thread c.1 th in (r.1, <[i := r.2]> c.2)
      | None => c
      end
  | Tick d => (set_clock (clock c.1 + Z.max 0 d) c.1, c.2)
  end.

Definition run (sched : list Action) (c : World * list Thread) : World * list Thread :=
  fold_left act sched c.

End Semantics.

Definition empty_world (now : Z) : World := mkWorld now None None None ∅ 0 0.

(** [obterToken()] as called by [fazerRequisicaoAutenticada]. *)
Definition caller : Thread := mkThread PStart false 0 [].

Definition start (now : Z) (n : nat) : World * list Thread :=
  (empty_world now, replicate n caller).

Definition is_done (th : Thread) : bool :=
  match pc th with PDone _ => true | _ => false end.

Definition result_of (th : Thread) : option Res :=
  match pc th with PDone r => Some r | _ => None end.

End TokenManager.

(* ===================================================================== *)
(** ** Theorems about the token manager                                   *)
(* ===================================================================== *)

Module TokenManagerFacts.
Import TokenManager.
Local Open Scope Z_scope.

Lemma token_valido_expired (td : TokenCache) (agora : Z) :
  expiresAt td <= agora -> token_valido (Some td) agora = None.
Proof.
  intros H. unfold token_valido.
  destruct (String.eqb (token td) EmptyString); simpl; [reflexivity|].
  destruct (0 <? expiresAt td - agora) eqn:E; [|reflexivity].
  apply Z.ltb_lt in E. lia.
Qed.

Lemma lock_loop_not_done (w : World) (th : Thread) (ls : Z) :
  is_done (lock_loop w th ls).2 = false.
Proof. unfold lock_loop. destruct (clock w - ls <? MAX_LOCK_WAIT); reflexivity. Qed.

(** ** C1
    A credential read from the store whose [expiresAt] is not in the future
    ([expiresAt <= now]) is treated exactly as an absent one at the fast
    path: the step taken is the one taken on a cache miss, and that step
    never returns a token (it awaits the running renewal or enters the lock
    loop).  The same holds at the other three reads of the credential. *)
Theorem expired_credential_never_returned
    (lo : nat -> LoginOutcome) (w : World) (th : Thread) (td : TokenCache) :
  expiresAt td <= clock w ->
  step_thread lo w (with_pc th (PTokenRead (Some td)))
    = step_thread lo w (with_pc th (PTokenRead None)) /\
  is_done (step_thread lo w (with_pc th (PTokenRead (Some td)))).2 = false /\
  (forall ls, step_thread lo w (with_pc th (PRecheckRead ls (Some td)))
              = step_thread lo w (with_pc th (PRecheckRead ls None))) /\
  step_thread lo w (with_pc th (PTimeoutRead (Some td)))
    = step_thread lo w (with_pc th (PTimeoutRead None)) /\
  step_thread lo w (with_pc th (PDoubleCheck (Some td)))
    = step_thread lo w (with_pc th (PDoubleCheck None)).
Proof.
  intros H. pose proof (token_valido_expired td (clock w) H) as Hv.
  unfold step_thread, with_pc; cbn [pc forceRefresh]. rewrite Hv.
  split; [reflexivity|]. split.
  - destruct (forceRefresh th), (tokenPromise w); simpl;
      first [reflexivity | apply lock_loop_not_done].
  - split; [intros ls; reflexivity|]. split; reflexivity.
Qed.

Definition stale_credential : TokenCache := mkTokenCache "stale"%string 1000 0.

Lemma expired_credential_never_returned_witness :
  expiresAt stale_credential <= clock (empty_world 1000) /\
  is_done (step_thread (fun _ => LoginNetError) (empty_world 1000)
             (with_pc caller (PTokenRead (Some stale_credential)))).2 = false.
Proof.
  split; [simpl; lia|].
  apply (expired_credential_never_returned (fun _ => LoginNetError)
           (empty_world 1000) caller stale_credential).
  simpl; lia.
Defined.

(** The property "N concurrent callers, no valid credential cached: exactly
    one login call and one common token", over every interleaving. *)
Definition single_flight (lo : nat -> LoginOutcome) (n : nat) : Prop :=
  forall (now : Z) (sched : list Action),
    let c := run lo sched (start now n) in
    forallb is_done c.2 = true ->
    logins c.1 = 1%nat /\
    (forall th1 th2, th1 ∈ c.2 -> th2 ∈ c.2 -> result_of th1 = result_of th2).

(** Login answers: the first login call yields "A", later ones "B". *)
Definition login_A_then_B (n : nat) : LoginOutcome :=
  LoginOk (if Nat.eqb n 0 then "A"%string else "B"%string).

(** Two callers alternate at every [await]: both read no credential, both
    see no [tokenPromise], both read no lock and both set it, both re-check
    and both start a renewal. *)
Definition alternating_schedule : list Action :=
  [Run 0; Run 1; Run 0; Run 1; Run 0; Run 1; Run 0; Run 1; Run 0; Run 1; Run 0; Run 1].

Lemma alternating_run :
  logins (run login_A_then_B alternating_schedule (start 0 2)).1 = 2%nat /\
  map pc (run login_A_then_B alternating_schedule (start 0 2)).2
    = [PDone (RToken "A"%string); PDone (RToken "B"%string)].
Proof. split; vm_compute; reflexivity. Qed.

(** ** C2 (refuted)
    Two concurrent callers with an empty store issue two login calls and
    receive different tokens: the lock is taken with a non-atomic
    get-then-set and [tokenPromise] is only consulted before the lock loop. *)
Lemma single_flight_two_callers_fails : ~ single_flight login_A_then_B 2.
Proof.
  unfold single_flight. intros H.
  destruct (H 0 alternating_schedule) as [Hl _].
  - vm_compute. reflexivity.
  - destruct alternating_run as [Hn _]. rewrite Hn in Hl. discriminate.
Qed.

(** ** Login failure handling (C5) *)

(** Every failing login releases the lock; only status 500 with
    [retryCount < 3] backs off for [1000 * (retryCount + 1)] ms and then
    re-enters [obterToken] with [retryCount + 1]; any other failure
    deletes the cached credential and fails, with [ServiceUnavailable] for
    status 500 and [AuthFailed] otherwise. *)
Definition LoginFailed (o : LoginOutcome) : Prop :=
  match o with LoginOk _ => False | _ => True end.

(** ** C5 (amended)
    On every login failure the lock is released.  If the failure is an
    HTTP answer with status exactly 500 and [retryCount < 3], the call
    waits [1000 * (retryCount + 1)] ms, clears [tokenPromise] and recurses
    with [retryCount + 1]; otherwise the cached credential is deleted and
    the call fails with [ServiceUnavailable] when the status was 500 and
    with [AuthFailed] for every other failure (other 5xx included). *)
Theorem login_failure_handling
    (lo : nat -> LoginOutcome) (w : World) (th : Thread) (p n : nat) :
  LoginFailed (lo n) ->
  let r := step_thread lo w (with_pc th (PLogin p n)) in
  lockSlot r.1 = None /\
  (if is_500 (lo n) && Nat.ltb (retryCount th) MAX_RETRIES
   then pc r.2 = PBackoff (clock w + RETRY_DELAY * Z.of_nat (S (retryCount th))) /\
        tokenSlot r.1 = tokenSlot w /\
        (forall w', RETRY_DELAY * Z.of_nat (S (retryCount th)) <= clock w' - clock w ->
           let r' := step_thread lo w' r.2 in
           pc r'.2 = PStart /\ retryCount r'.2 = S (retryCount th) /\
           forceRefresh r'.2 = forceRefresh th /\
           tokenPromise r'.1 = None /\ lockSlot r'.1 = None)
   else tokenSlot r.1 = None /\ tokenPromise r.1 = None /\
        pc r.2 = PDone (RErr (if is_500 (lo n) then ServiceUnavailable else AuthFailed))).
Proof.
  intros Hf. unfold step_thread, with_pc; cbn [pc retryCount forceRefresh owed].
  destruct (lo n) as [t| |s|] eqn:Ho; [contradiction| | |];
    destruct (is_500 _ && Nat.ltb (retryCount th) MAX_RETRIES) eqn:Hc; simpl;
    (split; [reflexivity|]);
    try (repeat split; reflexivity).
  all: split; [reflexivity|]; split; [reflexivity|].
  all: intros w1 Hw; cbn [pc].
  all: destruct (clock w + RETRY_DELAY * Z.of_nat (S (retryCount th)) <=? clock w1) eqn:E;
       [repeat split; reflexivity | apply Z.leb_gt in E; lia].
Qed.

Definition login_failure_witness_world : World := empty_world 0.

Lemma login_failure_handling_witness :
  LoginFailed (LoginHttpError 500) /\
  lockSlot (step_thread (fun _ => LoginHttpError 500) login_failure_witness_world
              (with_pc caller (PLogin 0 0))).1 = None.
Proof.
  split; [exact I|].
  exact (proj1 (login_failure_handling (fun _ => LoginHttpError 500)
                  login_failure_witness_world caller 0 0 I)).
Defined.

(** One caller, empty store: the steps up to the first login answer. *)
Definition solo_to_login : list Action := [Run 0; Run 0; Run 0; Run 0; Run 0; Run 0].

(** One caller whose logins all fail with 500: three back-offs. *)
Definition solo_retries : list Action :=
  solo_to_login ++ [Tick 1000; Run 0] ++ solo_to_login ++ [Tick 2000; Run 0]
  ++ solo_to_login ++ [Tick 3000; Run 0] ++ solo_to_login.

(** ** C5 (refuted as stated)
    A login answered with 503 is not retried and fails with [AuthFailed];
    logins answered with 500 are attempted four times, not three. *)
Lemma login_failure_claim_fails :
  let c503 := run (fun _ => LoginHttpError 503) solo_to_login (start 0 1) in
  let c500 := run (fun _ => LoginHttpError 500) solo_retries (start 0 1) in
  logins c503.1 = 1%nat /\ map pc c503.2 = [PDone (RErr AuthFailed)] /\
  logins c500.1 = 4%nat /\ map pc c500.2 = [PDone (RErr ServiceUnavailable)].
Proof. vm_compute. repeat split; reflexivity. Qed.

(** ** Credential persistence (C8) *)

(** ** C8 (amended)
    A successful login stores [expiresAt = now + 20 min] with a cache TTL
    of [20 * 60] seconds: the store evicts the entry exactly at
    [expiresAt], not before it, and the entry holds the new token. *)
Theorem login_success_persists
    (lo : nat -> LoginOutcome) (w : World) (th : Thread) (p n : nat) (t : string) :
  lo n = LoginOk t ->
  let r := step_thread lo w (with_pc th (PLogin p n)) in
  exists td, tokenSlot r.1 = Some (td, expiresAt td) /\
  token td = t /\ expiresAt td = clock w + 20 * 60 * 1000 /\
  lockSlot r.1 = None /\ pc r.2 = PDone (RToken t).
Proof.
  intros Ho. unfold step_thread, with_pc; cbn [pc]. rewrite Ho.
  exists (mkTokenCache t (clock w + TOKEN_VALIDITY) (clock w)). simpl.
  unfold evict_instant, TOKEN_TTL, TOKEN_VALIDITY.
  repeat split.
Qed.

Lemma login_success_persists_witness :
  (fun _ => LoginOk "A"%string) 0%nat = LoginOk "A"%string /\
  lockSlot (step_thread (fun _ => LoginOk "A"%string) (empty_world 0)
              (with_pc caller (PLogin 0 0))).1 = None.
Proof.
  split; [reflexivity|].
  destruct (login_success_persists (fun _ => LoginOk "A"%string) (empty_world 0)
              caller 0 0 "A"%string eq_refl) as [td (_ & _ & _ & Hl & _)].
  exact Hl.
Defined.

(** The claim "the store evicts the credential strictly before
    [expiresAt]", for every successful login. *)
Definition evicted_before_expiry (lo : nat -> LoginOutcome) : Prop :=
  forall w th p n t, lo n = LoginOk t ->
    match tokenSlot (step_thread lo w (with_pc th (PLogin p n))).1 with
    | Some (td, ev) => ev < expiresAt td
    | None => False
    end.

(** ** C8 (refuted as stated)
    A login at time 0 stores a credential with [expiresAt = 1200000] that
    the store evicts at 1200000, not before. *)
Lemma evicted_before_expiry_fails : ~ evicted_before_expiry (fun _ => LoginOk "A"%string).
Proof.
  unfold evicted_before_expiry. intros H.
  specialize (H (empty_world 0) caller 0%nat 0%nat "A"%string eq_refl).
  vm_compute in H. discriminate.
Qed.

End TokenManagerFacts.

(* ===================================================================== *)
(** ** Request executor: [fazerRequisicaoAutenticada] of sankhya-api.ts   *)
(* ===================================================================== *)

Module Executor.
Local Open Scope Z_scope.

(** [erro.code] of an axios error without a response. *)
Inductive ErrCode := ECONNABORTED | ENOTFOUND | OtherCode.

(** What one attempt ([await obterToken()] then [await axiosInstance(config)])
    produces. *)
Inductive Outcome :=
| Ok (data : string)
| HttpError (status : Z) (statusMessage message : string)  (* [erro.response] present *)
| NoResponse (code : ErrCode) (message : string)    (* network-level failure *)
| TokenError (message : string).                    (* [obterToken()] threw *)

(** The errors thrown at the end of the function. *)
Inductive ReqError :=
| SessionExpired          (* "Sessão expirada. Tente novamente." *)
| Timeout                 (* "Tempo de resposta excedido. Tente novamente." *)
| ServiceUnavailable      (* "Serviço temporariamente indisponível. Tente novamente." *)
| Failed (msg : string).  (* statusMessage || message || "Erro na comunicação..." *)

(** Observable effects, in order. *)
Inductive Event :=
| GetToken                (* await obterToken() *)
| Request (retryCount : nat)
| DeleteToken             (* cache.delete('sankhya:token') *)
| Sleep (ms : Z).

Definition MAX_RETRIES : nat := 2.
Definition RETRY_DELAY : Z := 1000.

Definition attempt_events (o : Outcome) (retryCount : nat) : list Event :=
  match o with
  | TokenError _ => [GetToken]
  | _ => [GetToken; Request retryCount]
  end.

(** [erro.response && (erro.response.status === 401 || erro.response.status === 403)] *)
Definition is_auth_error (o : Outcome) : bool :=
  match o with HttpError s _ _ => (s =? 401) || (s =? 403) | _ => false end.

(** [erro.code === 'ECONNABORTED' || erro.code === 'ENOTFOUND' || erro.response?.status >= 500] *)
Definition is_transient (o : Outcome) : bool :=
  match o with
  | HttpError s _ _ => 500 <=? s
  | NoResponse ECONNABORTED _ | NoResponse ENOTFOUND _ => true
  | _ => false
  end.

(** [a || b] on strings. *)
Definition or_else (a b : string) : string := if String.eqb a EmptyString then b else a.

Definition DEFAULT_MESSAGE : string := "Erro na comunicação com o servidor".

(** The error thrown once no retry applies. *)
Definition final_error (o : Outcome) : ReqError :=
  match o with
  | NoResponse ECONNABORTED _ => Timeout
  | HttpError s sm m =>
      if 500 <=? s then ServiceUnavailable else Failed (or_else sm (or_else m DEFAULT_MESSAGE))
  | NoResponse _ m | TokenError m => Failed (or_else m DEFAULT_MESSAGE)
  | Ok _ => Failed EmptyString
  end.

Section Run.

(** The outcome of the attempt made with a given [retryCount]: every
    recursive call increments [retryCount], so it numbers the attempts. *)
Variable attempt : nat -> Outcome.

(** One call with [retryCount], given the result [recur] of the recursive
    call [fazerRequisicaoAutenticada(fullUrl, method, data, retryCount + 1)]. *)
Definition fazer_body (retryCount : nat) (recur : list Event * (string + ReqError))
    : list Event * (string + ReqError) :=
  let o := attempt retryCount in
  let evs := attempt_events o retryCount in
  match o with
  | Ok d => (evs, inl d)
  | _ =>
      if is_auth_error o then
        (* await cache.delete('sankhya:token') *)
        if Nat.ltb retryCount 1 then
          (evs ++ [DeleteToken; Sleep 500] ++ recur.1, recur.2)
        else (evs ++ [DeleteToken], inr SessionExpired)
      else if is_transient o && Nat.ltb retryCount MAX_RETRIES then
        (evs ++ [Sleep (RETRY_DELAY * Z.of_nat (S retryCount))] ++ recur.1, recur.2)
      else (evs, inr (final_error o))
  end.

(** The recursion, with a fuel bound; three units always suffice since a
    recursive call needs [retryCount < MAX_RETRIES]. *)
Fixpoint fazer_go (fuel : nat) (retryCount : nat) : list Event * (string + ReqError) :=
  match fuel with
  | O => ([], inr (Failed EmptyString))
  | S fuel' => fazer_body retryCount (fazer_go fuel' (S retryCount))
  end.

Definition fazerRequisicaoAutenticada (retryCount : nat) : list Event * (string + ReqError) :=
  fazer_go 3 retryCount.

End Run.

End Executor.

Module ExecutorFacts.
Import Executor.
Local Open Scope Z_scope.

Lemma fazer_body_no_recur (attempt : nat -> Outcome) (r : nat) x y :
  (2 <= r)%nat -> fazer_body attempt r x = fazer_body attempt r y.
Proof.
  intros Hr. unfold fazer_body.
  assert (H1 : Nat.ltb r 1 = false) by (apply Nat.ltb_ge; lia).
  assert (H2 : Nat.ltb r MAX_RETRIES = false) by (apply Nat.ltb_ge; unfold MAX_RETRIES; lia).
  rewrite H1, H2. destruct (attempt r); try reflexivity;
  rewrite ?andb_false_r; destruct (is_auth_error _); reflexivity.
Qed.

Lemma fuel_enough (attempt : nat -> Outcome) (f r : nat) :
  (2 - r < f)%nat -> fazer_go attempt f r = fazer_go attempt (S f) r.
Proof.
  revert r. induction f as [|f IH]; intros r Hf; [lia|].
  change (fazer_body attempt r (fazer_go attempt f (S r))
          = fazer_body attempt r (fazer_go attempt (S f) (S r))).
  destruct (Nat.lt_ge_cases r 2) as [Hr|Hr].
  - rewrite (IH (S r)) by lia. reflexivity.
  - apply fazer_body_no_recur. exact Hr.
Qed.

Lemma fazer_unfold (attempt : nat -> Outcome) (r : nat) :
  fazerRequisicaoAutenticada attempt r = fazer_go attempt 3 r.
Proof. reflexivity. Qed.

Lemma fazer_step (attempt : nat -> Outcome) (r : nat) :
  fazerRequisicaoAutenticada attempt r
  = fazer_body attempt r (fazerRequisicaoAutenticada attempt (S r)).
Proof.
  unfold fazerRequisicaoAutenticada.
  rewrite <- (fuel_enough attempt 2 (S r)) by lia. reflexivity.
Qed.

(** ** C3
    A call that receives HTTP 401 or 403 deletes the cached credential;
    with [retryCount < 1] it waits 500 ms and makes exactly one new attempt,
    which starts by obtaining a token again; with [retryCount >= 1] it fails
    with [SessionExpired].  If the retried attempt receives 401/403 again,
    the call fails with [SessionExpired] after exactly two attempts. *)
Theorem session_expiry_single_retry (attempt : nat -> Outcome) (r : nat) :
  is_auth_error (attempt r) = true ->
  let evs := attempt_events (attempt r) r in
  fazerRequisicaoAutenticada attempt r =
    (if Nat.ltb r 1 then
       let x := fazerRequisicaoAutenticada attempt (S r) in
       (evs ++ [DeleteToken; Sleep 500] ++ x.1, x.2)
     else (evs ++ [DeleteToken], inr SessionExpired)) /\
  (is_auth_error (attempt (S r)) = true ->
   fazerRequisicaoAutenticada attempt r =
     (evs ++ [DeleteToken] ++
        (if Nat.ltb r 1
         then Sleep 500 :: attempt_events (attempt (S r)) (S r) ++ [DeleteToken]
         else []),
      inr SessionExpired)).
Proof.
  intros Ha evs.
  assert (Hr : fazerRequisicaoAutenticada attempt r =
    (if Nat.ltb r 1 then
       let x := fazerRequisicaoAutenticada attempt (S r) in
       (evs ++ [DeleteToken; Sleep 500] ++ x.1, x.2)
     else (evs ++ [DeleteToken], inr SessionExpired))).
  { rewrite fazer_step. unfold fazer_body. subst evs.
    destruct (attempt r); try discriminate; simpl in Ha |- *; rewrite Ha; reflexivity. }
  split; [exact Hr|].
  intros Ha1. rewrite Hr.
  destruct (Nat.ltb r 1) eqn:E; [|rewrite app_nil_r; reflexivity].
  apply Nat.ltb_lt in E.
  rewrite fazer_step. unfold fazer_body.
  assert (E1 : Nat.ltb (S r) 1 = false) by (apply Nat.ltb_ge; lia).
  destruct (attempt (S r)); try discriminate; simpl in Ha1 |- *; rewrite Ha1;
    reflexivity.
Qed.

(** Every attempt answered with 401. *)
Definition always_401 (_ : nat) : Outcome := HttpError 401 EmptyString "Request failed with status code 401".

Lemma session_expiry_single_retry_witness :
  is_auth_error (always_401 0) = true /\
  fazerRequisicaoAutenticada always_401 0 =
    ([GetToken; Request 0; DeleteToken; Sleep 500; GetToken; Request 1; DeleteToken],
     inr SessionExpired).
Proof.
  split; [reflexivity|].
  exact (proj2 (session_expiry_single_retry always_401 0 eq_refl) eq_refl).
Defined.

Lemma transient_step (attempt : nat -> Outcome) (r : nat) :
  is_transient (attempt r) = true ->
  fazerRequisicaoAutenticada attempt r =
    (if Nat.ltb r MAX_RETRIES
     then let x := fazerRequisicaoAutenticada attempt (S r) in
          ([GetToken; Request r; Sleep (RETRY_DELAY * Z.of_nat (S r))] ++ x.1, x.2)
     else ([GetToken; Request r], inr (final_error (attempt r)))).
Proof.
  intros Ht. rewrite fazer_step. unfold fazer_body.
  destruct (attempt r) as [d|s sm m|c m|m]; try discriminate.
  - simpl in Ht |- *. pose proof Ht as Hle. apply Z.leb_le in Hle.
    assert (Hs : ((s =? 401) || (s =? 403)) = false).
    { apply orb_false_iff; split; apply Z.eqb_neq; lia. }
    rewrite Hs, Ht. destruct (Nat.ltb r MAX_RETRIES); reflexivity.
  - destruct c; try discriminate; simpl;
      destruct (Nat.ltb r MAX_RETRIES); reflexivity.
Qed.

(** ** C4 (amended)
    When every attempt fails transiently (HTTP >= 500, ECONNABORTED or
    ENOTFOUND), exactly three attempts are made, separated by waits of
    1000 and 2000 ms ([RETRY_DELAY * (retryCount + 1)]); the call then
    fails with the error of the last attempt: [ServiceUnavailable] for an
    HTTP status >= 500 and [Timeout] for ECONNABORTED. *)
Theorem retry_exhaustion (attempt : nat -> Outcome) :
  (forall r, (r <= 2)%nat -> is_transient (attempt r) = true) ->
  fazerRequisicaoAutenticada attempt 0 =
    ([GetToken; Request 0; Sleep 1000; GetToken; Request 1; Sleep 2000;
      GetToken; Request 2], inr (final_error (attempt 2%nat))) /\
  (forall s sm m, attempt 2%nat = HttpError s sm m ->
     final_error (attempt 2%nat) = ServiceUnavailable) /\
  (forall m, attempt 2%nat = NoResponse ECONNABORTED m ->
     final_error (attempt 2%nat) = Timeout).
Proof.
  intros Ht. split; [|split].
  - rewrite (transient_step attempt 0) by (apply Ht; lia). simpl.
    rewrite (transient_step attempt 1) by (apply Ht; lia). simpl.
    rewrite (transient_step attempt 2) by (apply Ht; lia). simpl.
    reflexivity.
  - intros s sm m He. pose proof (Ht 2%nat ltac:(lia)) as H2.
    rewrite He in H2 |- *. simpl in H2 |- *. rewrite H2. reflexivity.
  - intros m He. rewrite He. reflexivity.
Qed.

(** Every attempt answered with 500. *)
Definition always_500 (_ : nat) : Outcome := HttpError 500 EmptyString "Request failed with status code 500".

Lemma retry_exhaustion_witness :
  (forall r, (r <= 2)%nat -> is_transient (always_500 r) = true) /\
  (fazerRequisicaoAutenticada always_500 0).2 = inr ServiceUnavailable.
Proof.
  assert (H : forall r, (r <= 2)%nat -> is_transient (always_500 r) = true)
    by (intros; reflexivity).
  split; [exact H|].
  destruct (retry_exhaustion always_500 H) as [E [Hs _]].
  rewrite E. cbn [snd]. rewrite (Hs 500 EmptyString "Request failed with status code 500"%string eq_refl).
  reflexivity.
Defined.

(** The claim: a downstream failing transiently at every attempt gets
    three attempts and then [ServiceUnavailable]. *)
Definition exhaustion_gives_service_unavailable : Prop :=
  forall attempt : nat -> Outcome,
    (forall r, is_transient (attempt r) = true) ->
    (fazerRequisicaoAutenticada attempt 0).2 = inr ServiceUnavailable.

(** ** C4 (refuted as stated)
    A downstream that always times out ends with the [Timeout] error, and
    one whose name never resolves ends with the raw error message; neither
    is [ServiceUnavailable]. *)
Lemma retry_exhaustion_claim_fails :
  (fazerRequisicaoAutenticada (fun _ => NoResponse ECONNABORTED "timeout of 15000ms exceeded") 0).2
    = inr Timeout /\
  (fazerRequisicaoAutenticada (fun _ => NoResponse ENOTFOUND "getaddrinfo ENOTFOUND api") 0).2
    = inr (Failed "getaddrinfo ENOTFOUND api") /\
  ~ exhaustion_gives_service_unavailable.
Proof.
  split; [reflexivity|]. split; [reflexivity|].
  intros H.
  specialize (H (fun _ => NoResponse ECONNABORTED "timeout of 15000ms exceeded"%string)
                (fun _ => eq_refl)).
  vm_compute in H. discriminate.
Qed.

End ExecutorFacts.

(* ===================================================================== *)
(** ** Request deduplication: [dedupedRequest] of produtos-service.ts     *)
(* ===================================================================== *)

(** [pendingRequests] is a module-level [Map<string, Promise>].  A call
    either returns the registered promise or invokes [fetcher()] and
    registers [fetcher().finally(() => pendingRequests.delete(key))].
    Promises are named by ids; [inflight] records which invoked operations
    have not settled yet, and under which key they were invoked. *)
Module Dedup.

Record DState := mkDState {
  pendingRequests : gmap string nat;
  inflight : gmap nat string;
  nextId : nat;
  invocations : list string   (* keys whose fetcher() was invoked, latest first *)
}.

Definition empty_state : DState := mkDState ∅ ∅ 0 [].

(** [dedupedRequest(key, fetcher)]: the promise handed back, and the state. *)
Definition dedupedRequest (key : string) (s : DState) : nat * DState :=
  match pendingRequests s !! key with
  | Some p => (p, s)
  | None =>
      let p := nextId s in
      (p, mkDState (<[key := p]> (pendingRequests s)) (<[p := key]> (inflight s))
                   (S p) (key :: invocations s))
  end.

Inductive Settlement := Fulfilled | Rejected.

(** The promise of [fetcher()] number [p] settles; its [.finally] callback
    runs [pendingRequests.delete(key)] whatever the settlement. *)
Definition settle (p : nat) (o : Settlement) (s : DState) : DState :=
  match inflight s !! p with
  | Some key => mkDState (delete key (pendingRequests s)) (delete p (inflight s))
                         (nextId s) (invocations s)
  | None => s
  end.

Inductive DEvent :=
| Call (key : string)
| Settle (p : nat) (o : Settlement).

Definition apply_event (s : DState) (e : DEvent) : DState :=
  match e with
  | Call key => (dedupedRequest key s).2
  | Settle p o => settle p o s
  end.

Definition replay (evs : list DEvent) : DState := fold_left apply_event evs empty_state.

End Dedup.

Module DedupFacts.
Import Dedup.

(** The registration and the in-flight operations are in one-to-one
    correspondence, and every id handed out is below [nextId]. *)
Definition Inv (s : DState) : Prop :=
  (forall p key, inflight s !! p = Some key <-> pendingRequests s !! key = Some p) /\
  (forall p key, inflight s !! p = Some key -> p < nextId s).

Lemma Inv_empty : Inv empty_state.
Proof.
  split; intros p key; simpl; rewrite !lookup_empty; [split|]; discriminate.
Qed.

Lemma Inv_call (key : string) (s : DState) : Inv s -> Inv (dedupedRequest key s).2.
Proof.
  intros [Hiff Hlt]. unfold dedupedRequest.
  destruct (pendingRequests s !! key) as [p|] eqn:Hk; [split; assumption|].
  split; simpl.
  - intros q k'. destruct (decide (q = nextId s)) as [->|Hq].
    + rewrite lookup_insert_eq. destruct (decide (k' = key)) as [->|Hk'].
      * rewrite lookup_insert_eq. tauto.
      * rewrite lookup_insert_ne by congruence. split; [congruence|].
        intros Hp. apply Hiff in Hp. apply Hlt in Hp. lia.
    + rewrite lookup_insert_ne by congruence.
      destruct (decide (k' = key)) as [->|Hk'].
      * rewrite lookup_insert_eq. split; [|congruence].
        intros Hp. apply Hiff in Hp. congruence.
      * rewrite lookup_insert_ne by congruence. apply Hiff.
  - intros q k'. destruct (decide (q = nextId s)) as [->|Hq]; [lia|].
    rewrite lookup_insert_ne by congruence. intros H. apply Hlt in H. lia.
Qed.

Lemma Inv_settle (p : nat) (o : Settlement) (s : DState) : Inv s -> Inv (settle p o s).
Proof.
  intros [Hiff Hlt]. unfold settle.
  destruct (inflight s !! p) as [key|] eqn:Hp; [|split; assumption].
  split; simpl.
  - intros q k'. destruct (decide (q = p)) as [->|Hq].
    + rewrite lookup_delete_eq. destruct (decide (k' = key)) as [->|Hk'].
      * rewrite lookup_delete_eq. split; discriminate.
      * rewrite lookup_delete_ne by congruence. split; [congruence|].
        intros H. apply Hiff in H. congruence.
    + rewrite lookup_delete_ne by congruence.
      destruct (decide (k' = key)) as [->|Hk'].
      * rewrite lookup_delete_eq. split; [|congruence].
        intros H. apply Hiff in H. apply Hiff in Hp. congruence.
      * rewrite lookup_delete_ne by congruence. apply Hiff.
  - intros q k'. destruct (decide (q = p)) as [->|Hq].
    + rewrite lookup_delete_eq. discriminate.
    + rewrite lookup_delete_ne by congruence. apply Hlt.
Qed.

Lemma Inv_replay (evs : list DEvent) : Inv (replay evs).
Proof.
  unfold replay. generalize Inv_empty. generalize empty_state.
  induction evs as [|e evs IH]; intros s Hs; simpl; [exact Hs|].
  apply IH. destruct e; [apply Inv_call | apply Inv_settle]; exact Hs.
Qed.

(** ** C6
    In every reachable state and for every key: a call that finds a
    pending promise returns it and invokes nothing; a call that finds none
    invokes the operation once and registers its promise; the registration
    of a promise stays exactly as long as the operation has not settled,
    and is removed when it settles, fulfilled or rejected; so at most one
    invoked operation per key is in flight. *)
Theorem dedup_single_flight (evs : list DEvent) (key : string) (o : Settlement) :
  let s := replay evs in
  (forall p, pendingRequests s !! key = Some p -> dedupedRequest key s = (p, s)) /\
  (pendingRequests s !! key = None ->
     let r := dedupedRequest key s in
     pendingRequests r.2 !! key = Some r.1 /\ inflight r.2 !! r.1 = Some key /\
     invocations r.2 = key :: invocations s) /\
  (forall p, inflight s !! p = Some key <-> pendingRequests s !! key = Some p) /\
  (forall p, inflight s !! p = Some key ->
     pendingRequests (settle p o s) !! key = None /\ inflight (settle p o s) !! p = None) /\
  (forall p1 p2, inflight s !! p1 = Some key -> inflight s !! p2 = Some key -> p1 = p2).
Proof.
  intros s. destruct (Inv_replay evs) as [Hiff Hlt]. fold s in Hiff, Hlt.
  split; [|split; [|split; [|split]]].
  - intros p Hp. unfold dedupedRequest. rewrite Hp. reflexivity.
  - intros Hn. unfold dedupedRequest. rewrite Hn. simpl.
    rewrite !lookup_insert_eq. repeat split.
  - intros p. apply Hiff.
  - intros p Hp. unfold settle. rewrite Hp. simpl.
    rewrite !lookup_delete_eq. split; reflexivity.
  - intros p1 p2 H1 H2. apply Hiff in H1. apply Hiff in H2. congruence.
Qed.

End DedupFacts.

(* ===================================================================== *)
(** ** Positional normalization: [mapearEntidades] / [mapearParceiros]    *)
(* ===================================================================== *)

(** A raw row is the object [{f0: {$: v0}, f1: {$: v1}, ...}]; a slot that
    is present is an object (truthy) whose [$] may be missing ([None]).
    The normalized record is the object [cleanObject], a map from field
    name to the [$] value (its own properties).  [cleanObject] is a plain
    object literal: assigning to the name [__proto__] runs the setter that
    [Object.prototype] defines for it, which sets no own property (and,
    for a string or [undefined] value, does nothing at all); every other
    name becomes an own property. *)
Module Normalize.

Abbreviation Row := (gmap string (option string)).
Abbreviation CleanObject := (gmap string (option string)).

(** [`f${i}`] *)
Definition fieldKey (i : nat) : string := "f" ++ pretty i.

(** [for (let i = 0; i < fieldNames.length; i++)
       if (rawEntity[fieldKey]) cleanObject[fieldName] = rawEntity[fieldKey].$;],
    from position [i] on. *)
Fixpoint zip_fields (fieldNames : list string) (i : nat) (rawEntity : Row)
    (cleanObject : CleanObject) : CleanObject :=
  match fieldNames with
  | [] => cleanObject
  | fieldName :: rest =>
      let cleanObject' :=
        match rawEntity !! fieldKey i with
        | Some v =>
            if String.eqb fieldName "__proto__" then cleanObject
            else <[fieldName := v]> cleanObject
        | None => cleanObject
        end in
      zip_fields rest (S i) rawEntity cleanObject'
  end.

(** [cleanObject._id = cleanObject.<idField> ? String(cleanObject.<idField>) : String(index)];
    [idField] is CODPROD in [mapearEntidades] and CODPARC in [mapearParceiros]. *)
Definition clean_entity (idField : string) (fieldNames : list string)
    (rawEntity : Row) (index : nat) : CleanObject :=
  let cleanObject := zip_fields fieldNames 0 rawEntity ∅ in
  let id := match cleanObject !! idField with
            | Some (Some v) => if String.eqb v EmptyString then pretty index else v
            | _ => pretty index
            end in
  <["_id" := Some id]> cleanObject.

(** [entities.entity] is a single object or an array. *)
Inductive EntityField :=
| Single (r : Row)
| Many (rs : list Row).

Definition entity_array (e : EntityField) : list Row :=
  match e with Single r => [r] | Many rs => rs end.

Definition mapearEntidades (fieldNames : list string) (entity : EntityField) : list CleanObject :=
  imap (fun index rawEntity => clean_entity "CODPROD" fieldNames rawEntity index)
       (entity_array entity).

Definition mapearParceiros (fieldNames : list string) (entity : EntityField) : list CleanObject :=
  imap (fun index rawEntity => clean_entity "CODPARC" fieldNames rawEntity index)
       (entity_array entity).

End Normalize.

Module NormalizeFacts.
Import Normalize.

Lemma zip_fields_not_in (names : list string) (i : nat) (row : Row) (acc : CleanObject)
    (n : string) :
  n ∉ names -> zip_fields names i row acc !! n = acc !! n.
Proof.
  revert i acc. induction names as [|m names IH]; intros i acc Hn; simpl; [reflexivity|].
  rewrite IH by set_solver.
  destruct (row !! fieldKey i); [|reflexivity].
  destruct (String.eqb m "__proto__"); [reflexivity|].
  rewrite lookup_insert_ne by set_solver. reflexivity.
Qed.

Lemma zip_fields_nodup (names : list string) (i j : nat) (row : Row) (acc : CleanObject)
    (n : string) :
  NoDup names -> n <> "__proto__" -> names !! j = Some n ->
  zip_fields names i row acc !! n =
    match row !! fieldKey (i + j) with Some v => Some v | None => acc !! n end.
Proof.
  revert i j acc. induction names as [|m names IH]; intros i j acc Hnd Hp Hj;
    [discriminate|].
  apply NoDup_cons in Hnd as [Hm Hnd]. simpl.
  destruct j as [|j]; simpl in Hj.
  - injection Hj as ->. rewrite zip_fields_not_in by exact Hm.
    rewrite Nat.add_0_r.
    destruct (row !! fieldKey i); [|reflexivity].
    rewrite (proj2 (String.eqb_neq n "__proto__") Hp). apply lookup_insert_eq.
  - rewrite (IH (S i) j) by assumption.
    replace (S i + j)%nat with (i + S j)%nat by lia.
    destruct (row !! fieldKey (i + S j)); [reflexivity|].
    assert (Hne : m <> n).
    { intros ->. apply Hm. apply list_elem_of_lookup. eauto. }
    destruct (row !! fieldKey i); [|reflexivity].
    destruct (String.eqb m "__proto__"); [reflexivity|].
    apply lookup_insert_ne. exact Hne.
Qed.

(** The record built from the example of the specification. *)
Definition example_names : list string := ["CODPROD"; "DESCRPROD"].
Definition example_row : Row := {[ "f0" := Some "10"; "f1" := Some "Widget" ]}.

(** ** C7 (amended)
    For a field-name list whose names are pairwise distinct and differ
    from [_id] and [__proto__], the normalized record maps the [i]-th name
    to the [$] of slot [f<i>] when that slot is present and omits the name
    when the slot is absent; the record also has the key [_id], and no
    key other than the listed names and [_id].  On the example of the
    specification it maps CODPROD to "10" and DESCRPROD to "Widget". *)
Theorem normalization_zips_positions (idField : string) (names : list string)
    (row : Row) (index i : nat) (n : string) :
  NoDup names -> "_id" ∉ names -> "__proto__" ∉ names -> names !! i = Some n ->
  clean_entity idField names row index !! n = row !! fieldKey i /\
  (row !! fieldKey i = None -> clean_entity idField names row index !! n = None) /\
  (exists id, clean_entity idField names row index !! "_id" = Some (Some id)) /\
  (forall k, k ∉ names -> k <> "_id" -> clean_entity idField names row index !! k = None).
Proof.
  intros Hnd Hid Hpr Hi.
  assert (Hne : n <> "_id").
  { intros ->. apply Hid. apply list_elem_of_lookup. eauto. }
  assert (Hnp : n <> "__proto__").
  { intros ->. apply Hpr. apply list_elem_of_lookup. eauto. }
  unfold clean_entity.
  split; [|split; [|split]].
  - rewrite lookup_insert_ne by congruence.
    rewrite (zip_fields_nodup names 0 i row ∅ n Hnd Hnp Hi). simpl.
    destruct (row !! fieldKey i); [reflexivity|apply lookup_empty].
  - intros Hnone. rewrite lookup_insert_ne by congruence.
    rewrite (zip_fields_nodup names 0 i row ∅ n Hnd Hnp Hi). simpl.
    rewrite Hnone. apply lookup_empty.
  - eexists. apply lookup_insert_eq.
  - intros k Hk Hkid. rewrite lookup_insert_ne by congruence.
    rewrite zip_fields_not_in by exact Hk. apply lookup_empty.
Qed.

Lemma normalization_zips_positions_witness :
  NoDup example_names /\ ("_id" ∉ example_names) /\ ("__proto__" ∉ example_names) /\
  clean_entity "CODPROD" example_names example_row 0 !! "CODPROD" = Some (Some "10") /\
  clean_entity "CODPROD" example_names example_row 0 !! "DESCRPROD" = Some (Some "Widget").
Proof.
  assert (Hnd : NoDup example_names) by (apply (bool_decide_unpack _); vm_compute; reflexivity).
  assert (Hid : "_id" ∉ example_names) by (apply (bool_decide_unpack _); vm_compute; reflexivity).
  assert (Hpr : "__proto__" ∉ example_names)
    by (apply (bool_decide_unpack _); vm_compute; reflexivity).
  split; [exact Hnd|]. split; [exact Hid|]. split; [exact Hpr|]. split.
  - rewrite (proj1 (normalization_zips_positions "CODPROD" example_names example_row 0 0
                      "CODPROD" Hnd Hid Hpr eq_refl)).
    vm_compute. reflexivity.
  - rewrite (proj1 (normalization_zips_positions "CODPROD" example_names example_row 0 1
                      "DESCRPROD" Hnd Hid Hpr eq_refl)).
    vm_compute. reflexivity.
Defined.

(** The claim for every field-name list. *)
Definition zips_every_list : Prop :=
  forall (names : list string) (row : Row) (i : nat) (n : string),
    names !! i = Some n -> row !! fieldKey i <> None ->
    clean_entity "CODPROD" names row 0 !! n = row !! fieldKey i.

(** ** C7 (refuted as stated)
    With the name "A" listed twice, the record keeps the value of slot
    [f1] under "A", not that of [f0]; a field named [_id] is overwritten by
    the computed identifier; a field named [__proto__] is never stored. *)
Lemma normalization_claim_fails :
  clean_entity "CODPROD" ["A"; "A"] {[ "f0" := Some "1"; "f1" := Some "2" ]} 0 !! "A"
    = Some (Some "2") /\
  clean_entity "CODPROD" ["_id"] {[ "f0" := Some "x" ]} 0 !! "_id" = Some (Some "0") /\
  clean_entity "CODPROD" ["__proto__"] {[ "f0" := Some "x" ]} 0 !! "__proto__" = None /\
  ~ zips_every_list.
Proof.
  split; [vm_compute; reflexivity|]. split; [vm_compute; reflexivity|].
  split; [vm_compute; reflexivity|].
  intros H.
  specialize (H ["A"; "A"] {[ "f0" := Some "1"; "f1" := Some "2" ]} 0 "A" eq_refl).
  assert (Hp : ({[ "f0" := Some "1"; "f1" := Some "2" ]} : Row) !! fieldKey 0 <> None)
    by (vm_compute; discriminate).
  specialize (H Hp). vm_compute in H. discriminate.
Qed.

End NormalizeFacts.

(* ===================================================================== *)
(** ** consultarProdutos (src/lib/produtos-service.ts)                    *)
(* ===================================================================== *)

Module ProdutosService.
Import Normalize.
Local Open Scope Z_scope.

Definition URL_CONSULTA_SERVICO : string :=
  "https://api.sandbox.sankhya.com.br/gateway/v1/mge/service.sbr?serviceName=CRUDServiceProvider.loadRecords&outputType=json".

(** *** String helpers: [trim], [toUpperCase], [JSON.stringify] of a string *)

(** White space removed by [String.prototype.trim] (ASCII part). *)
Definition is_ws (c : Ascii.ascii) : bool :=
  let n := Ascii.nat_of_ascii c in (Nat.leb 9 n && Nat.leb n 13) || Nat.eqb n 32.

Fixpoint trim_start (s : string) : string :=
  match s with
  | String c rest => if is_ws c then trim_start rest else s
  | EmptyString => EmptyString
  end.

Definition srev (s : string) : string :=
  String.string_of_list_ascii (List.rev (String.list_ascii_of_string s)).

Definition trim (s : string) : string := srev (trim_start (srev (trim_start s))).

(** [String.prototype.toUpperCase] on ASCII letters. *)
Definition upper_char (c : Ascii.ascii) : Ascii.ascii :=
  let n := Ascii.nat_of_ascii c in
  if Nat.leb 97 n && Nat.leb n 122 then Ascii.ascii_of_nat (n - 32) else c.

Fixpoint toUpperCase (s : string) : string :=
  match s with
  | String c rest => String (upper_char c) (toUpperCase rest)
  | EmptyString => EmptyString
  end.

Definition dq : string := String (Ascii.ascii_of_nat 34) EmptyString.
Definition bs : string := String (Ascii.ascii_of_nat 92) EmptyString.

Definition hex_digit (n : nat) : Ascii.ascii :=
  Ascii.ascii_of_nat (if Nat.ltb n 10 then 48 + n else 87 + n)%nat.

(** The escaping [JSON.stringify] applies to one character of a string. *)
Definition json_char (c : Ascii.ascii) : string :=
  let n := Ascii.nat_of_ascii c in
  if Nat.eqb n 34 then bs ++ dq
  else if Nat.eqb n 92 then bs ++ bs
  else if Nat.eqb n 8 then bs ++ "b"
  else if Nat.eqb n 9 then bs ++ "t"
  else if Nat.eqb n 10 then bs ++ "n"
  else if Nat.eqb n 12 then bs ++ "f"
  else if Nat.eqb n 13 then bs ++ "r"
  else if Nat.ltb n 32 then
    bs ++ "u00" ++ String (hex_digit (n / 16)) (String (hex_digit (n mod 16)) EmptyString)
  else String c EmptyString.

Fixpoint json_escape (s : string) : string :=
  match s with
  | String c rest => json_char c ++ json_escape rest
  | EmptyString => EmptyString
  end.

(** [JSON.stringify] of a string value. *)
Definition jstr (s : string) : string := dq ++ json_escape s ++ dq.

(** *** The request *)

Definition criteriaExpression (searchName searchCode : string) : string :=
  let filters : list string :=
    (if negb (String.eqb (trim searchCode) EmptyString)
     then [("CODPROD = '" ++ trim searchCode ++ "'")%string] else []) ++
    (if negb (String.eqb (trim searchName) EmptyString)
     then [("UPPER(DESCRPROD) LIKE '%" ++ toUpperCase (trim searchName) ++ "%'")%string] else []) in
  match filters with
  | [] => "1=1"
  | _ => String.concat " AND " filters
  end.

Definition fieldset_list : string :=
  "CODPROD, DESCRPROD, ATIVO, LOCAL, MARCA, CARACTERISTICAS, UNIDADE, VLRCOMERC".

(** [JSON.stringify(PRODUTOS_PAYLOAD)], keys in insertion order. *)
Definition PRODUTOS_PAYLOAD_json (criteria : string) : string :=
  "{" ++ jstr "requestBody" ++ ":{" ++ jstr "dataSet" ++ ":{" ++
  jstr "rootEntity" ++ ":" ++ jstr "Produto" ++ "," ++
  jstr "includePresentationFields" ++ ":" ++ jstr "N" ++ "," ++
  jstr "offsetPage" ++ ":null," ++
  jstr "disableRowsLimit" ++ ":true," ++
  jstr "entity" ++ ":{" ++ jstr "fieldset" ++ ":{" ++ jstr "list" ++ ":" ++
    jstr fieldset_list ++ "}}" ++
  (if String.eqb criteria EmptyString then EmptyString
   else "," ++ jstr "criteria" ++ ":{" ++ jstr "expression" ++ ":{" ++ jstr "$" ++ ":" ++
        jstr criteria ++ "}}") ++
  "}}}".

(** [`produtos:list:${page}:${pageSize}:${searchName}:${searchCode}`] *)
Definition cacheKey (page pageSize : Z) (searchName searchCode : string) : string :=
  "produtos:list:" ++ pretty page ++ ":" ++ pretty pageSize ++ ":" ++
  searchName ++ ":" ++ searchCode.

(** [`produtos:${URL_CONSULTA_SERVICO}:${JSON.stringify(PRODUTOS_PAYLOAD)}`] *)
Definition requestKey (searchName searchCode : string) : string :=
  "produtos:" ++ URL_CONSULTA_SERVICO ++ ":" ++
  PRODUTOS_PAYLOAD_json (criteriaExpression searchName searchCode).

(** *** The response and the result *)

(** [respostaCompleta.responseBody.entities]: absent, or its field names,
    its [entity] member (absent when falsy) and its [total] (present when
    truthy, as [parseInt] reads it). *)
Inductive Resposta :=
| SemEntities
| ComEntities (fieldNames : list string) (entity : option EntityField) (total : option Z).

Record Resultado := mkResultado {
  produtos : list CleanObject;
  total : Z;
  page : Z;
  pageSize : Z;
  totalPages : Z
}.

Definition vazio (page pageSize : Z) : Resultado := mkResultado [] 0 page pageSize 0.

(** [list.slice(0, end)]: a negative [end] counts from the end. *)
Definition slice0 {A} (l : list A) (end_ : Z) : list A :=
  take (Z.to_nat (if end_ <? 0 then Z.of_nat (length l) + end_ else end_)) l.

(** [if (lista.length > pageSize) lista = lista.slice(0, pageSize);] *)
Definition limitar (lista : list CleanObject) (pageSize : Z) : list CleanObject :=
  if Z.of_nat (length lista) >? pageSize then slice0 lista pageSize else lista.

(** [({...produto, ESTOQUE: '0', VLRCOMERC: produto.VLRCOMERC || '0'})] *)
Definition comEstoque (produto : CleanObject) : CleanObject :=
  let vlr := match produto !! "VLRCOMERC"%string with
             | Some (Some v) => if String.eqb v EmptyString then "0"%string else v
             | _ => "0"%string
             end in
  <["VLRCOMERC"%string := Some vlr]> (<["ESTOQUE"%string := Some "0"%string]> produto).

(** [Math.ceil(t / pageSize)] for a non-zero [pageSize]. *)
Definition ceil_div (t p : Z) : Z := - ((- t) / p).

(** What the fetcher closure of a call with [page] and [pageSize] builds
    from a response. *)
Definition build_resultado (page pageSize : Z) (resp : Resposta) : Resultado :=
  match resp with
  | SemEntities => vazio page pageSize
  | ComEntities _ None _ => vazio page pageSize
  | ComEntities fieldNames (Some entity) tot =>
      let produtosComEstoque :=
        List.map comEstoque (limitar (mapearEntidades fieldNames entity) pageSize) in
      mkResultado produtosComEstoque
        (match tot with Some t => t | None => Z.of_nat (length produtosComEstoque) end)
        page pageSize
        (match tot with Some t => ceil_div t pageSize | None => 1 end)
  end.

(** *** Calls sharing the deduplication map *)

(** The arguments the fetcher closure captured. *)
Record Closure := mkClosure { c_page : Z; c_pageSize : Z; c_cacheKey : string }.

Record PState := mkPState {
  cache : gmap string (Resultado * Z);     (* redisCacheService: value, TTL *)
  dedup : Dedup.DState;                    (* pendingRequests *)
  closures : gmap nat Closure;             (* fetcher of each operation *)
  settled : gmap nat Resultado;            (* value each fulfilled operation resolved to *)
  rejected : gmap nat string               (* error each rejected operation rejected with *)
}.

Definition empty_pstate : PState := mkPState ∅ Dedup.empty_state ∅ ∅ ∅.

(** What a call hands back: a cached value, or the promise of operation [p]. *)
Inductive Handle :=
| FromCache (r : Resultado)
| Awaiting (p : nat).

Definition consultarProdutos (page pageSize : Z) (searchName searchCode : string)
    (s : PState) : Handle * PState :=
  let ck := cacheKey page pageSize searchName searchCode in
  match cache s !! ck with
  | Some (cached, _) => (FromCache cached, s)
  | None =>
      let rk := requestKey searchName searchCode in
      match Dedup.pendingRequests (dedup s) !! rk with
      | Some p => (Awaiting p, s)
      | None =>
          let '(p, d') := Dedup.dedupedRequest rk (dedup s) in
          (Awaiting p, mkPState (cache s) d' (<[p := mkClosure page pageSize ck]> (closures s))
                                (settled s) (rejected s))
      end
  end.

(** The request of operation [p] completes: [inl] the response,
    [inr] the error thrown. *)
Definition settle_fetch (p : nat) (outcome : Resposta + string) (s : PState) : PState :=
  match closures s !! p with
  | None => s
  | Some c =>
      match outcome with
      | inl resp =>
          let r := build_resultado (c_page c) (c_pageSize c) resp in
          (* every fulfilled path caches for 1 hour *)
          mkPState (<[c_cacheKey c := (r, 60 * 60 * 1)]> (cache s)) (Dedup.settle p Dedup.Fulfilled (dedup s))
                   (closures s) (<[p := r]> (settled s)) (rejected s)
      | inr erro =>
          (* catch (erro): await logApiRequest(...);
             await redisCacheService.set(cacheKey, {produtos: [], ...}, 60); throw erro;
             ([logApiRequest], not in src/, is assumed to return normally) *)
          mkPState (<[c_cacheKey c := (vazio (c_page c) (c_pageSize c), 60)]> (cache s))
                   (Dedup.settle p Dedup.Rejected (dedup s)) (closures s) (settled s)
                   (<[p := erro]> (rejected s))
      end
  end.

(** The value a call's promise resolved to, once settled. *)
Definition resultado_of (h : Handle) (s : PState) : option Resultado :=
  match h with
  | FromCache r => Some r
  | Awaiting p => settled s !! p
  end.

End ProdutosService.

Module ProdutosServiceFacts.
Import Normalize ProdutosService.
Local Open Scope Z_scope.

Lemma slice0_length {A} (l : list A) (n : Z) :
  0 <= n -> Z.of_nat (length (slice0 l n)) <= n.
Proof.
  intros Hn. unfold slice0. destruct (n <? 0) eqn:E; [lia|].
  rewrite length_take. lia.
Qed.

(** The closure on its own honours its own [pageSize] and marks every
    record with [ESTOQUE = '0']. *)
Lemma build_resultado_bounded (page pageSize : Z) (resp : Resposta) :
  0 <= pageSize ->
  Z.of_nat (length (produtos (build_resultado page pageSize resp))) <= pageSize /\
  Forall (fun o => o !! "ESTOQUE"%string = Some (Some "0"%string))
         (produtos (build_resultado page pageSize resp)).
Proof.
  intros Hps. destruct resp as [|names [entity|] tot]; simpl;
    try (split; [lia | constructor]).
  split.
  - rewrite length_map. unfold limitar.
    destruct (Z.of_nat (length (mapearEntidades names entity)) >? pageSize) eqn:E.
    + apply slice0_length; exact Hps.
    + rewrite Z.gtb_ltb, Z.ltb_ge in E. lia.
  - induction (limitar (mapearEntidades names entity) pageSize) as [|o l IH];
      simpl; constructor; [|exact IH].
    unfold comEstoque. rewrite lookup_insert_ne by discriminate.
    apply lookup_insert_eq.
Qed.

Definition example_fields : list string := ["CODPROD"; "DESCRPROD"].

Definition example_resposta : Resposta :=
  ComEntities example_fields
    (Some (Many [ {[ "f0" := Some "10"; "f1" := Some "Widget" ]};
                  {[ "f0" := Some "11"; "f1" := Some "Gadget" ]} ]))
    None.

(** Caller A asks for page 1 with 2 products per page, caller B for page 1
    with 1 product per page, same search; B calls while A's request is in
    flight, then the request completes with two products. *)
Definition race_A_B : Handle * Handle * PState :=
  let '(hA, s1) := consultarProdutos 1 2 EmptyString EmptyString empty_pstate in
  let '(hB, s2) := consultarProdutos 1 1 EmptyString EmptyString s1 in
  (hA, hB, settle_fetch 0 (inl example_resposta) s2).

(** ** C10 (fails on the code)
    Two calls that differ only in [pageSize] share one in-flight request
    because [requestKey] omits [page] and [pageSize]; the call with
    [pageSize = 1] resolves to the two-product page built for the call
    with [pageSize = 2]. *)
Theorem consultar_produtos_shared_page_exceeds :
  let '(hA, hB, s) := race_A_B in
  hA = hB /\
  option_map (fun r => (length (produtos r), pageSize r)) (resultado_of hB s) = Some (2%nat, 2) /\
  ~ (forall r, resultado_of hB s = Some r -> Z.of_nat (length (produtos r)) <= 1).
Proof.
  vm_compute. split; [reflexivity|]. split; [reflexivity|].
  intros H. specialize (H _ eq_refl). vm_compute in H. apply H. reflexivity.
Qed.

End ProdutosServiceFacts.

(* ===================================================================== *)
(** ** Cache-aside fetchers                                               *)
(* ===================================================================== *)

(** The fetchers of the specification that run their request in the
    calling call: [consultarParceiros], [consultarEstoqueProduto],
    [consultarTiposOperacao], [consultarTiposNegociacao] and
    [consultarTipVendaPorModelo] (order headers by model).  The products
    fetcher [consultarProdutos] shares its request between calls through
    [dedupedRequest]; it is the [ProdutosService] model above.  The model
    follows one call from its cache lookup to the value it returns or the
    error it throws, given what the authenticated request produced.  The
    cache operations and [logApiRequest] (whose code is not in src/) are
    assumed to return normally. *)
Module Fetchers.
Local Open Scope Z_scope.

Inductive Fetcher :=
| Parceiros | Estoque | TiposOperacao | TiposNegociacao | TipVendaPorModelo.

Inductive Payload :=
| Normalized (rows : list Normalize.CleanObject)  (* the mapped result *)
| EmptyEstoque                    (* {estoques: [], total: 0, estoqueTotal: 0} *)
| NullPair.                       (* {codTipVenda: null, nunota: null} *)

(** Cache entries: value and time-to-live in seconds. *)
Abbreviation Store := (gmap string (Payload * Z)).

Inductive Outcome :=
| Returned (v : Payload)
| Thrown (erro : string).

(** Whether the fetcher reads its cache key first. *)
Definition has_cache (f : Fetcher) : bool :=
  match f with TipVendaPorModelo => false | _ => true end.

(** The TTL of the success path: [cacheService.set(cacheKey, resultado, ttl)]. *)
Definition success_ttl (f : Fetcher) : option Z :=
  match f with
  | Parceiros => Some (10 * 60)
  | Estoque => Some 30
  | TiposOperacao | TiposNegociacao => Some (60 * 60)
  | TipVendaPorModelo => None
  end.

(** The [catch (erro)] block of each fetcher. *)
Definition on_failure (f : Fetcher) (cacheKey : string)
    (st : Store) (erro : string) : Store * Outcome :=
  match f with
  | Parceiros | TiposOperacao | TiposNegociacao =>
      (* catch (erro) { console.error(...); throw erro; } *)
      (st, Thrown erro)
  | Estoque =>
      (* await redisCacheService.set(cacheKey, {estoques: [], ...}, 15); throw erro; *)
      (<[cacheKey := (EmptyEstoque, 15)]> st, Thrown erro)
  | TipVendaPorModelo =>
      (* catch (erro) { return { codTipVenda: null, nunota: null }; } *)
      (st, Returned NullPair)
  end.

(** One call: cache lookup, then the request ([inl] its mapped result,
    [inr] the error it threw). *)
Definition fetch (f : Fetcher) (cacheKey : string)
    (st : Store) (request : Payload + string) : Store * Outcome :=
  match (if has_cache f then st !! cacheKey else None) with
  | Some (cached, _) => (st, Returned cached)
  | None =>
      match request with
      | inl v =>
          match success_ttl f with
          | Some ttl => (<[cacheKey := (v, ttl)]> st, Returned v)
          | None => (st, Returned v)
          end
      | inr erro => on_failure f cacheKey st erro
      end
  end.

End Fetchers.

Module FetchersFacts.
Import Fetchers.
Local Open Scope Z_scope.

(** The claim: on a cache miss, a failing request leaves a short-TTL
    sentinel under the cache key and the error is propagated. *)
Definition sentinel_then_propagate (f : Fetcher) : Prop :=
  forall (cacheKey : string) (st : Store) (erro : string),
    st !! cacheKey = None ->
    exists v ttl, (fetch f cacheKey st (inr erro)).1 !! cacheKey = Some (v, ttl) /\
                  ttl <= 60 /\
                  (fetch f cacheKey st (inr erro)).2 = Thrown erro.

(** ** C9 (refuted as stated)
    The partners fetcher rethrows without caching anything, and the
    order-header-by-model fetcher swallows the error. *)
Lemma fetchers_claim_fails :
  (fetch Parceiros "parceiros:list:1:50:::undefined:undefined" ∅ (inr "timeout")).1 = ∅ /\
  (fetch TipVendaPorModelo EmptyString ∅ (inr "timeout")).2 = Returned NullPair /\
  ~ sentinel_then_propagate Parceiros.
Proof.
  split; [reflexivity|]. split; [reflexivity|].
  intros H.
  destruct (H "parceiros:list:1:50:::undefined:undefined"%string ∅ "timeout"%string
              (lookup_empty _)) as (v & ttl & Hv & _).
  unfold fetch in Hv; cbn [has_cache fst] in Hv.
  rewrite lookup_empty in Hv. discriminate.
Qed.

(** ** C9 (amended)
    On a cache miss followed by a failing request: the stock fetcher
    caches an empty stock list for 15 s and rethrows the error; the
    partners, operation-types and negotiation-types fetchers rethrow
    without writing the cache; the order-header-by-model fetcher, which
    has no cache, returns a null pair instead of propagating.  The products
    fetcher: a call that misses its cache key and finds no pending request
    for its search starts the shared request; a later call with the same
    search that misses its own cache key joins it, whatever its page and
    page size.  When the request fails, the caught error writes the empty
    page for 60 s under the cache key of the starting call only, and the
    shared promise, which every joined call awaits, rejects with the
    error; a joined call with another cache key gets no entry under it. *)
Theorem fetch_failure_behaviour (ck : string) (st : Store) (erro : string)
    (s : ProdutosService.PState) (pg ps pg' ps' : Z) (nm cd nm' cd' : string) :
  st !! ck = None ->
  fetch Estoque ck st (inr erro) = (<[ck := (EmptyEstoque, 15)]> st, Thrown erro) /\
  fetch Parceiros ck st (inr erro) = (st, Thrown erro) /\
  fetch TiposOperacao ck st (inr erro) = (st, Thrown erro) /\
  fetch TiposNegociacao ck st (inr erro) = (st, Thrown erro) /\
  fetch TipVendaPorModelo ck st (inr erro) = (st, Returned NullPair) /\
  (ProdutosService.cache s !! ProdutosService.cacheKey pg ps nm cd = None ->
   Dedup.pendingRequests (ProdutosService.dedup s) !! ProdutosService.requestKey nm cd = None ->
   let p := Dedup.nextId (ProdutosService.dedup s) in
   let c1 := ProdutosService.consultarProdutos pg ps nm cd s in
   c1.1 = ProdutosService.Awaiting p /\
   ProdutosService.cache (ProdutosService.settle_fetch p (inr erro) c1.2)
     !! ProdutosService.cacheKey pg ps nm cd = Some (ProdutosService.vazio pg ps, 60) /\
   ProdutosService.rejected (ProdutosService.settle_fetch p (inr erro) c1.2) !! p = Some erro /\
   (ProdutosService.cache c1.2 !! ProdutosService.cacheKey pg' ps' nm' cd' = None ->
    ProdutosService.requestKey nm' cd' = ProdutosService.requestKey nm cd ->
    let c2 := ProdutosService.consultarProdutos pg' ps' nm' cd' c1.2 in
    let s3 := ProdutosService.settle_fetch p (inr erro) c2.2 in
    c2.1 = ProdutosService.Awaiting p /\
    ProdutosService.cache s3 !! ProdutosService.cacheKey pg ps nm cd
      = Some (ProdutosService.vazio pg ps, 60) /\
    ProdutosService.rejected s3 !! p = Some erro /\
    (ProdutosService.cacheKey pg' ps' nm' cd' <> ProdutosService.cacheKey pg ps nm cd ->
     ProdutosService.cache s3 !! ProdutosService.cacheKey pg' ps' nm' cd' = None))).
Proof.
  intros Hm. unfold fetch; simpl. rewrite Hm.
  split; [reflexivity|]. split; [reflexivity|]. split; [reflexivity|].
  split; [reflexivity|]. split; [reflexivity|].
  intros Hc Hp.
  set (ck1 := ProdutosService.cacheKey pg ps nm cd).
  set (rk := ProdutosService.requestKey nm cd).
  assert (E1 : ProdutosService.consultarProdutos pg ps nm cd s =
    (ProdutosService.Awaiting (Dedup.nextId (ProdutosService.dedup s)),
     ProdutosService.mkPState (ProdutosService.cache s)
       (Dedup.mkDState
          (<[rk := Dedup.nextId (ProdutosService.dedup s)]>
             (Dedup.pendingRequests (ProdutosService.dedup s)))
          (<[Dedup.nextId (ProdutosService.dedup s) := rk]>
             (Dedup.inflight (ProdutosService.dedup s)))
          (S (Dedup.nextId (ProdutosService.dedup s)))
          (rk :: Dedup.invocations (ProdutosService.dedup s)))
       (<[Dedup.nextId (ProdutosService.dedup s) := ProdutosService.mkClosure pg ps ck1]>
          (ProdutosService.closures s))
       (ProdutosService.settled s) (ProdutosService.rejected s))).
  { unfold ProdutosService.consultarProdutos. cbv zeta. rewrite Hc, Hp.
    unfold Dedup.dedupedRequest. rewrite Hp. reflexivity. }
  cbv zeta. rewrite E1. cbn [fst snd].
  set (p := Dedup.nextId (ProdutosService.dedup s)).
  split; [reflexivity|].
  split; [|split].
  - unfold ProdutosService.settle_fetch. cbn [ProdutosService.closures].
    rewrite lookup_insert_eq. cbn. apply lookup_insert_eq.
  - unfold ProdutosService.settle_fetch. cbn [ProdutosService.closures].
    rewrite lookup_insert_eq. cbn. apply lookup_insert_eq.
  - intros Hc' Hrk.
    assert (E2 : ProdutosService.consultarProdutos pg' ps' nm' cd'
      (ProdutosService.mkPState (ProdutosService.cache s)
       (Dedup.mkDState (<[rk := p]> (Dedup.pendingRequests (ProdutosService.dedup s)))
          (<[p := rk]> (Dedup.inflight (ProdutosService.dedup s)))
          (S p) (rk :: Dedup.invocations (ProdutosService.dedup s)))
       (<[p := ProdutosService.mkClosure pg ps ck1]> (ProdutosService.closures s))
       (ProdutosService.settled s) (ProdutosService.rejected s)) =
      (ProdutosService.Awaiting p,
       ProdutosService.mkPState (ProdutosService.cache s)
       (Dedup.mkDState (<[rk := p]> (Dedup.pendingRequests (ProdutosService.dedup s)))
          (<[p := rk]> (Dedup.inflight (ProdutosService.dedup s)))
          (S p) (rk :: Dedup.invocations (ProdutosService.dedup s)))
       (<[p := ProdutosService.mkClosure pg ps ck1]> (ProdutosService.closures s))
       (ProdutosService.settled s) (ProdutosService.rejected s))).
    { cbn [ProdutosService.cache] in Hc'.
      unfold ProdutosService.consultarProdutos. cbn [ProdutosService.cache ProdutosService.dedup
        Dedup.pendingRequests]. rewrite Hc', Hrk. fold rk. rewrite lookup_insert_eq. reflexivity. }
    rewrite E2. cbn [fst snd].
    unfold ProdutosService.settle_fetch. cbn [ProdutosService.closures].
    rewrite lookup_insert_eq. cbn.
    split; [reflexivity|]. split; [apply lookup_insert_eq|]. split; [apply lookup_insert_eq|].
    intros Hne. rewrite lookup_insert_ne by (fold ck1 in Hne; congruence).
    cbn [ProdutosService.cache] in Hc'. exact Hc'.
Qed.

(** Page 1 starts the request, page 2 of the same search joins it, and the
    request fails: page 1's key holds the empty page, page 2's key nothing,
    and the shared promise rejects. *)
Lemma fetch_failure_behaviour_witness :
  let c1 := ProdutosService.consultarProdutos 1 50 EmptyString EmptyString
              ProdutosService.empty_pstate in
  let c2 := ProdutosService.consultarProdutos 2 50 EmptyString EmptyString c1.2 in
  let s3 := ProdutosService.settle_fetch 0 (inr "timeout") c2.2 in
  (∅ : Store) !! "estoque:produto:10:"%string = None /\
  ProdutosService.cache s3 !! ProdutosService.cacheKey 2 50 EmptyString EmptyString = None /\
  ProdutosService.rejected s3 !! 0%nat = Some "timeout"%string.
Proof.
  cbv zeta.
  destruct (fetch_failure_behaviour "estoque:produto:10:" ∅ "timeout"
              ProdutosService.empty_pstate 1 50 2 50 EmptyString EmptyString
              EmptyString EmptyString (lookup_empty _))
    as (_ & _ & _ & _ & _ & H).
  destruct (H ltac:(vm_compute; reflexivity) ltac:(vm_compute; reflexivity))
    as (_ & _ & _ & H').
  destruct (H' ltac:(vm_compute; reflexivity) eq_refl) as (_ & _ & Hrej & Hno).
  split; [apply lookup_empty|]. split.
  - apply Hno. vm_compute. discriminate.
  - exact Hrej.
Defined.

End FetchersFacts.

(* ===================================================================== *)
(** ** Token status and invalidation: [obterTokenAtual], [invalidarToken] *)
(* ===================================================================== *)

Module TokenAdmin.
Import TokenManager.
Local Open Scope Z_scope.

(** [interface TokenStatus].  [expiraEm] keeps the timestamp that
    [new Date(tokenData.expiresAt).toISOString()] renders, [st_geradoEm]
    the stored [geradoEm]. *)
Record TokenStatus := mkTokenStatus {
  ativo : bool;
  st_token : option string;
  expiraEm : Z;
  st_geradoEm : Z;
  tempoRestanteMs : Z;
  tempoRestanteMin : Z
}.

(** [obterTokenAtual()]: reads the credential without renewing it. *)
Definition obterTokenAtual (w : World) : option TokenStatus :=
  match get_token w with
  | None => None
  | Some tokenData =>
      let agora := clock w in
      let tempoRestante := expiresAt tokenData - agora in
      let ativo := 0 <? tempoRestante in
      Some (mkTokenStatus ativo (if ativo then Some (token tokenData) else None)
              (expiresAt tokenData) (geradoEm tokenData)
              (Z.max 0 tempoRestante) (Z.max 0 (tempoRestante / 60000)))
  end.

(** [invalidarToken()]: [delete(TOKEN_CACHE_KEY)] then [delete(LOCK_KEY)];
    the module variable [tokenPromise] is left as it is. *)
Definition invalidarToken (w : World) : World :=
  set_lockSlot None (set_tokenSlot None w).

End TokenAdmin.

Module TokenAdminFacts.
Import TokenManager TokenAdmin.
Local Open Scope Z_scope.

Lemma run_cons lo a l c : run lo (a :: l) c = run lo l (act lo c a).
Proof. reflexivity. Qed.

Lemma run_nil lo c : run lo [] c = c.
Proof. reflexivity. Qed.

Lemma act_single lo w th :
  act lo (w, [th]) (Run 0) = ((step_thread lo w th).1, [(step_thread lo w th).2]).
Proof. reflexivity. Qed.

(** [obterTokenAtual] reports [null] exactly when no credential is
    cached; otherwise it is active exactly while [expiresAt] is in the
    future, exposes the token only when active, and its remaining time is
    never negative, with the minutes the floor of the milliseconds; a
    credential [obterToken] would return is reported active with that
    token. *)
Theorem obterTokenAtual_status (w : World) :
  (obterTokenAtual w = None <-> get_token w = None) /\
  (forall s, obterTokenAtual w = Some s ->
     (ativo s = true <-> exists td, get_token w = Some td /\ clock w < expiresAt td) /\
     (st_token s <> None -> ativo s = true) /\
     0 <= tempoRestanteMs s /\
     tempoRestanteMin s * 60000 <= tempoRestanteMs s < tempoRestanteMin s * 60000 + 60000 /\
     (ativo s = false -> tempoRestanteMs s = 0 /\ tempoRestanteMin s = 0)) /\
  (forall t, token_valido (get_token w) (clock w) = Some t ->
     exists s, obterTokenAtual w = Some s /\ ativo s = true /\ st_token s = Some t).
Proof.
  unfold obterTokenAtual.
  destruct (get_token w) as [td|] eqn:Hg.
  - split; [split; discriminate|]. split.
    + intros s Hs. injection Hs as <-. simpl.
      destruct (0 <? expiresAt td - clock w) eqn:E.
      * apply Z.ltb_lt in E. split; [split; [intros _; exists td; split; [reflexivity|lia] | reflexivity]|].
        split; [intros _; reflexivity|].
        pose proof (Z.div_mod (expiresAt td - clock w) 60000 ltac:(lia)) as Hd.
        pose proof (Z.mod_pos_bound (expiresAt td - clock w) 60000 ltac:(lia)) as Hm.
        pose proof (Z.div_pos (expiresAt td - clock w) 60000 ltac:(lia) ltac:(lia)) as Hp.
        rewrite !Z.max_r by lia. split; [lia|]. split; [lia|].
        intros; discriminate.
      * apply Z.ltb_ge in E.
        assert (Hq : (expiresAt td - clock w) / 60000 <= 0).
        { apply Z.div_le_upper_bound; lia. }
        rewrite !Z.max_l by lia.
        split; [split; [discriminate | intros (td' & Htd & Hlt); injection Htd as <-; lia]|].
        split; [intros H; exfalso; apply H; reflexivity|].
        split; [lia|]. split; [lia|]. intros _; split; reflexivity.
    + intros t Ht. simpl in Ht.
      destruct (negb (String.eqb (token td) EmptyString) && (0 <? expiresAt td - clock w)) eqn:E;
        [|discriminate].
      injection Ht as <-. apply andb_true_iff in E as [_ E]. rewrite E.
      eexists; split; [reflexivity|]. split; reflexivity.
  - split; [split; reflexivity|]. split; [intros s Hs; discriminate|].
    intros t Ht. discriminate.
Qed.

(** The fast path: a caller that finds a valid credential returns it after
    its single cache read, leaving the world untouched (no lock, no login,
    no write). *)
Theorem fast_path_returns_cached (lo : nat -> LoginOutcome) (w : World) (t : string) :
  token_valido (get_token w) (clock w) = Some t ->
  run lo [Run 0; Run 0] (w, [caller]) = (w, [mkThread (PDone (RToken t)) false 0 []]).
Proof.
  intros Ht. unfold run. remember (get_token w) as v. simpl.
  rewrite <- Heqv. unfold step_thread, with_pc; cbn [pc forceRefresh caller]. rewrite Ht.
  unfold finish; simpl. destruct w; reflexivity.
Qed.

Definition valid_world : World :=
  mkWorld 1000 (Some (mkTokenCache "abc" 60000 0, 2000000)) None None ∅ 0 0.

Lemma fast_path_returns_cached_witness :
  token_valido (get_token valid_world) (clock valid_world) = Some "abc"%string /\
  run (fun _ => LoginNoToken) [Run 0; Run 0] (valid_world, [caller])
    = (valid_world, [mkThread (PDone (RToken "abc")) false 0 []]).
Proof.
  split; [reflexivity|].
  apply (fast_path_returns_cached (fun _ => LoginNoToken) valid_world "abc"). reflexivity.
Defined.

(** [obterToken(true)] discards the cached credential and, when no lock
    is held and no renewal is in flight, issues a login call within four
    steps, even if the discarded credential was still valid. *)
Theorem force_refresh_logs_in (lo : nat -> LoginOutcome) (w : World) :
  lock_present w = false -> tokenPromise w = None ->
  let c := run lo [Run 0; Run 0; Run 0; Run 0] (w, [mkThread PStart true 0 []]) in
  logins c.1 = S (logins w) /\ get_token c.1 = None /\
  tokenPromise c.1 = Some (nextPromise w) /\
  c.2 = [mkThread (PLogin (nextPromise w) (logins w)) true 0 [nextPromise w]].
Proof.
  intros Hl Hp. destruct w as [c ts ls tp ps np lg]. simpl in Hp; subst tp.
  rewrite !run_cons, run_nil, !act_single.
  cbn. unfold lock_loop; cbn [clock set_tokenSlot]. rewrite Z.sub_diag. cbn.
  unfold lock_present in *; cbn in *.
  destruct ls as [[a ev]|]; [rewrite Hl|]; cbn; repeat split.
Qed.

Lemma force_refresh_logs_in_witness :
  lock_present valid_world = false /\ tokenPromise valid_world = None /\
  logins (run (fun _ => LoginNoToken) [Run 0; Run 0; Run 0; Run 0]
            (valid_world, [mkThread PStart true 0 []])).1 = 1%nat.
Proof.
  split; [reflexivity|]. split; [reflexivity|].
  exact (proj1 (force_refresh_logs_in (fun _ => LoginNoToken) valid_world eq_refl eq_refl)).
Defined.

Lemma step_start (lo : nat -> LoginOutcome) (w : World) (r : nat) (o : list nat) :
  step_thread lo w (mkThread PStart false r o) = (w, mkThread (PTokenRead (get_token w)) false r o).
Proof. reflexivity. Qed.

Lemma step_token_miss (lo : nat -> LoginOutcome) (w : World) v (r : nat) (o : list nat) :
  token_valido v (clock w) = None -> tokenPromise w = None ->
  step_thread lo w (mkThread (PTokenRead v) false r o)
  = (w, mkThread (PLockRead (clock w) (lock_present w)) false r o).
Proof.
  intros Hv Hp. unfold step_thread; cbn [pc forceRefresh]. rewrite Hv, Hp.
  unfold lock_loop. rewrite Z.sub_diag. reflexivity.
Qed.

Lemma step_lock_free (lo : nat -> LoginOutcome) (w : World) ls (r : nat) (o : list nat) :
  step_thread lo w (mkThread (PLockRead ls false) false r o)
  = (set_lockSlot (Some (clock w, evict_instant (clock w) LOCK_TTL)) w, mkThread PLockSet false r o).
Proof. reflexivity. Qed.

Lemma step_lock_set (lo : nat -> LoginOutcome) (w : World) (r : nat) (o : list nat) :
  step_thread lo w (mkThread PLockSet false r o) = (w, mkThread (PDoubleCheck (get_token w)) false r o).
Proof. reflexivity. Qed.

Lemma step_double_check_miss (lo : nat -> LoginOutcome) (w : World) v (r : nat) (o : list nat) :
  token_valido v (clock w) = None ->
  step_thread lo w (mkThread (PDoubleCheck v) false r o) = start_login w (mkThread (PDoubleCheck v) false r o).
Proof. intros Hv. unfold step_thread; cbn [pc]. rewrite Hv. reflexivity. Qed.

Lemma step_login_ok (lo : nat -> LoginOutcome) (w : World) p n (r : nat) (o : list nat) (t : string) :
  lo n = LoginOk t ->
  step_thread lo w (mkThread (PLogin p n) false r o)
  = finish (set_tokenPromise None (set_lockSlot None
              (set_tokenSlot (Some (mkTokenCache t (clock w + TOKEN_VALIDITY) (clock w),
                                    evict_instant (clock w) TOKEN_TTL)) w)))
           (mkThread (PLogin p n) false r o) (RToken t).
Proof. intros Hlo. unfold step_thread; cbn [pc]. rewrite Hlo. reflexivity. Qed.

(** After [invalidarToken], [obterTokenAtual] reports no credential, and a
    lone caller (no renewal in flight) logs in again: with a successful
    login it returns the new token and caches it for 20 minutes. *)
Theorem invalidate_then_relogin (lo : nat -> LoginOutcome) (w : World) (t : string) :
  tokenPromise w = None -> lo (logins w) = LoginOk t ->
  obterTokenAtual (invalidarToken w) = None /\
  let c := run lo [Run 0; Run 0; Run 0; Run 0; Run 0; Run 0] (invalidarToken w, [caller]) in
  c.2 = [mkThread (PDone (RToken t)) false 0 []] /\
  logins c.1 = S (logins w) /\
  get_token c.1 = Some (mkTokenCache t (clock w + TOKEN_VALIDITY) (clock w)).
Proof.
  intros Hp Hlo. split; [reflexivity|].
  unfold caller. rewrite !run_cons, run_nil.
  rewrite act_single, step_start. cbn [fst snd].
  rewrite act_single, step_token_miss by (try reflexivity; exact Hp). cbn [fst snd].
  replace (lock_present (invalidarToken w)) with false by reflexivity.
  rewrite act_single, step_lock_free. cbn [fst snd].
  rewrite act_single, step_lock_set. cbn [fst snd].
  rewrite act_single, step_double_check_miss by reflexivity. cbn [fst snd].
  unfold start_login. cbn [fst snd forceRefresh retryCount owed].
  rewrite act_single, step_login_ok with (t := t) by exact Hlo. cbn [fst snd].
  unfold finish. cbn [fst snd fold_left owed forceRefresh retryCount].
  split; [reflexivity|]. split; [reflexivity|].
  unfold get_token. cbn [tokenSlot clock set_promises set_tokenPromise set_lockSlot set_tokenSlot].
  replace (clock (invalidarToken w)) with (clock w) by (destruct w; reflexivity).
  assert (E : (clock w <? evict_instant (clock w) TOKEN_TTL) = true).
  { apply Z.ltb_lt. unfold evict_instant, TOKEN_TTL. lia. }
  rewrite E. reflexivity.
Qed.

Lemma invalidate_then_relogin_witness :
  tokenPromise valid_world = None /\ (fun _ : nat => LoginOk "new") (logins valid_world) = LoginOk "new" /\
  get_token (run (fun _ => LoginOk "new") [Run 0; Run 0; Run 0; Run 0; Run 0; Run 0]
               (invalidarToken valid_world, [caller])).1
    = Some (mkTokenCache "new" (1000 + TOKEN_VALIDITY) 1000).
Proof.
  split; [reflexivity|]. split; [reflexivity|].
  exact (proj2 (proj2 (proj2 (invalidate_then_relogin (fun _ => LoginOk "new") valid_world "new"
                                 eq_refl eq_refl)))).
Defined.

End TokenAdminFacts.


(* ===================================================================== *)
(** ** Bounds of the request executor [fazerRequisicaoAutenticada]       *)
(* ===================================================================== *)

Module ExecutorTrace.
Import Executor.
Local Open Scope Z_scope.

(** The [retryCount] of every HTTP request issued, in order. *)
Fixpoint requests (evs : list Event) : list nat :=
  match evs with
  | [] => []
  | Request r :: evs' => r :: requests evs'
  | _ :: evs' => requests evs'
  end.

(** Total time spent in [await sleep(...)]. *)
Fixpoint slept (evs : list Event) : Z :=
  match evs with
  | [] => 0
  | Sleep ms :: evs' => ms + slept evs'
  | _ :: evs' => slept evs'
  end.

(** The waiting budget left to a call made with [retryCount]: the waits
    [RETRY_DELAY * (retryCount + 1)] of the retries still allowed. *)
Definition sleep_budget (r : nat) : Z :=
  match r with 0%nat => 3000 | 1%nat => 2000 | _ => 0 end.

End ExecutorTrace.

Module ExecutorTraceFacts.
Import Executor ExecutorFacts ExecutorTrace.
Local Open Scope Z_scope.

Lemma requests_app (a b : list Event) : requests (a ++ b) = requests a ++ requests b.
Proof. induction a as [|[] a IH]; simpl; rewrite ?IH; reflexivity. Qed.

Lemma slept_app (a b : list Event) : slept (a ++ b) = slept a + slept b.
Proof. induction a as [|[] a IH]; simpl; rewrite ?IH; lia. Qed.

(** The three shapes of one call of [fazerRequisicaoAutenticada]. *)
Lemma fazer_body_cases (attempt : nat -> Outcome) (r : nat) recur :
  (exists d, attempt r = Ok d /\ fazer_body attempt r recur = ([GetToken; Request r], inl d)) \/
  ((r < 2)%nat /\ exists mid, requests mid = [] /\ slept mid <= RETRY_DELAY * Z.of_nat (S r) /\
     fazer_body attempt r recur = ([GetToken; Request r] ++ mid ++ recur.1, recur.2)) \/
  (exists evs e, (requests evs = [] \/ requests evs = [r]) /\ slept evs = 0 /\
     fazer_body attempt r recur = (evs, inr e)).
Proof.
  unfold fazer_body. cbv zeta.
  destruct (attempt r) as [d|s sm m|c m|m] eqn:Ha.
  - left. exists d. split; reflexivity.
  - right. destruct (is_auth_error (HttpError s sm m)).
    + destruct (Nat.ltb r 1) eqn:L.
      * left. apply Nat.ltb_lt in L. split; [lia|].
        exists [DeleteToken; Sleep 500]. split; [reflexivity|]. split; [simpl; unfold RETRY_DELAY; lia|].
        reflexivity.
      * right. do 2 eexists; split; [|split; [|reflexivity]]; [(left; reflexivity) || (right; reflexivity) | reflexivity].
    + destruct (is_transient (HttpError s sm m) && Nat.ltb r MAX_RETRIES) eqn:T.
      * left. apply andb_true_iff in T as [_ T]. apply Nat.ltb_lt in T.
        unfold MAX_RETRIES in T. split; [lia|].
        eexists [Sleep _]. split; [reflexivity|]. split; [|reflexivity]. simpl. lia.
      * right. do 2 eexists; split; [|split; [|reflexivity]]; [(left; reflexivity) || (right; reflexivity) | reflexivity].
  - right. cbn [is_auth_error].
    destruct (is_transient (NoResponse c m) && Nat.ltb r MAX_RETRIES) eqn:T.
    + left. apply andb_true_iff in T as [_ T]. apply Nat.ltb_lt in T.
      unfold MAX_RETRIES in T. split; [lia|].
      eexists [Sleep _]. split; [reflexivity|]. split; [|reflexivity]. simpl. lia.
    + right. do 2 eexists; split; [|split; [|reflexivity]]; [(left; reflexivity) || (right; reflexivity) | reflexivity].
  - right. right. cbn. do 2 eexists; split; [|split; [|reflexivity]]; [(left; reflexivity) || (right; reflexivity) | reflexivity].
Qed.

Definition trace_ok (attempt : nat -> Outcome) (r : nat) : Prop :=
  let x := fazerRequisicaoAutenticada attempt r in
  (exists k, (k <= 3 - r)%nat /\ requests x.1 = seq r k) /\
  slept x.1 <= sleep_budget r /\
  (forall d, x.2 = inl d ->
     exists r', (r <= r' <= 2)%nat /\ attempt r' = Ok d /\ requests x.1 = seq r (S r' - r)).

Lemma trace_ok_all (attempt : nat -> Outcome) (n r : nat) :
  (r <= 2)%nat -> (2 - r = n)%nat -> trace_ok attempt r.
Proof.
  revert r. induction n as [|n IH]; intros r Hr Hn; unfold trace_ok;
    rewrite fazer_step;
    destruct (fazer_body_cases attempt r (fazerRequisicaoAutenticada attempt (S r)))
      as [[d [Ha E]] | [[Hlt [mid [Rm [Sm E]]]] | [evs [e [Re [Se E]]]]]];
    rewrite E; cbn [fst snd].
  - split; [exists 1%nat; split; [lia|reflexivity]|]. split; [unfold sleep_budget; simpl; destruct r as [|[|]]; lia|].
    intros d' Hd. injection Hd as <-. exists r. split; [lia|]. split; [exact Ha|].
    replace (S r - r)%nat with 1%nat by lia. reflexivity.
  - lia.
  - split; [destruct Re as [Re|Re]; rewrite Re; [exists 0%nat|exists 1%nat]; split; first [lia|reflexivity]|].
    split; [rewrite Se; unfold sleep_budget; destruct r as [|[|]]; lia|]. discriminate.
  - split; [exists 1%nat; split; [lia|reflexivity]|]. split; [unfold sleep_budget; simpl; destruct r as [|[|]]; lia|].
    intros d' Hd. injection Hd as <-. exists r. split; [lia|]. split; [exact Ha|].
    replace (S r - r)%nat with 1%nat by lia. reflexivity.
  - destruct (IH (S r) ltac:(lia) ltac:(lia)) as [[k [Hk Rk]] [Sk Dk]].
    split; [|split].
    + exists (S k). split; [lia|]. rewrite requests_app. simpl. rewrite requests_app, Rm, Rk. reflexivity.
    + rewrite slept_app. simpl. rewrite slept_app.
      unfold sleep_budget in *. unfold RETRY_DELAY in Sm.
      destruct r as [|[|]]; simpl in Sm, Sk |- *; lia.
    + intros d Hd. destruct (Dk d Hd) as [r' [Hr' [Ha Rr]]].
      exists r'. split; [lia|]. split; [exact Ha|].
      rewrite requests_app. simpl. rewrite requests_app, Rm, Rr. simpl.
      replace (S r' - r)%nat with (S (S r' - S r)) by lia. reflexivity.
  - split; [destruct Re as [Re|Re]; rewrite Re; [exists 0%nat|exists 1%nat]; split; first [lia|reflexivity]|].
    split; [rewrite Se; unfold sleep_budget; destruct r as [|[|]]; lia|]. discriminate.
Qed.

(** Whatever the downstream answers, one call of
    [fazerRequisicaoAutenticada] issues at most three HTTP requests,
    numbered 0, 1, 2 in order, and waits at most 3000 ms in total; when it
    returns data, that data is the answer of its last request. *)
Theorem fazer_bounded (attempt : nat -> Outcome) :
  let x := fazerRequisicaoAutenticada attempt 0 in
  (exists k, (k <= 3)%nat /\ requests x.1 = seq 0 k) /\
  slept x.1 <= 3000 /\
  (forall d, x.2 = inl d ->
     exists r, (r <= 2)%nat /\ attempt r = Ok d /\ requests x.1 = seq 0 (S r)).
Proof.
  destruct (trace_ok_all attempt 2 0 ltac:(lia) eq_refl) as [[k [Hk Rk]] [Sk Dk]].
  split; [exists k; split; [lia|exact Rk]|]. split; [exact Sk|].
  intros d Hd. destruct (Dk d Hd) as [r [Hr [Ha Rr]]]. exists r.
  split; [lia|]. split; [exact Ha|]. rewrite Rr. f_equal; lia.
Qed.

(** An answer that is neither data, nor 401/403, nor transient (a 404,
    say, or a failure of [obterToken]) is never retried: the call makes a
    single attempt and throws [final_error] of it. *)
Theorem fazer_no_retry (attempt : nat -> Outcome) (r : nat) :
  (forall d, attempt r <> Ok d) ->
  is_auth_error (attempt r) = false ->
  is_transient (attempt r) = false ->
  fazerRequisicaoAutenticada attempt r
    = (attempt_events (attempt r) r, inr (final_error (attempt r))).
Proof.
  intros Hok Ha Ht. rewrite fazer_step. unfold fazer_body. cbv zeta.
  rewrite Ha, Ht. simpl andb.
  destruct (attempt r) eqn:E; [exfalso; eapply Hok; reflexivity| reflexivity..].
Qed.

Definition not_found (_ : nat) : Outcome :=
  HttpError 404 "Not Found" "Request failed with status code 404".

Lemma fazer_no_retry_witness :
  (forall d, not_found 0 <> Ok d) /\ is_auth_error (not_found 0) = false /\
  is_transient (not_found 0) = false /\
  fazerRequisicaoAutenticada not_found 0 = ([GetToken; Request 0], inr (Failed "Not Found")).
Proof.
  assert (H : forall d, not_found 0 <> Ok d) by discriminate.
  split; [exact H|]. split; [reflexivity|]. split; [reflexivity|].
  exact (fazer_no_retry not_found 0 H eq_refl eq_refl).
Defined.

End ExecutorTraceFacts.


(* ===================================================================== *)
(** ** Deduplicated requests of src/lib/produtos-service.ts:
       [dedupedRequest], the local [fazerRequisicaoAutenticada] and
       [buscarPrecoProduto]                                               *)
(* ===================================================================== *)

Module LocalRequest.
Import Executor.

(** Values a promise of this module can be fulfilled with: the [resposta.data]
    of [fazerRequisicaoAutenticada] or the price of [buscarPrecoProduto]. *)
Inductive Val := VData (d : string) | VNum (z : Z).

(** What a [buscarPrecoProduto] attempt produces: a price parsed from the
    answer, or the error caught in its [catch] block. *)
Inductive PrecoOutcome := PrecoOk (preco : Z) | PrecoErr (o : Outcome).

(** The state of one JavaScript promise.
    - [FBody]: the [async () => {...}] fetcher of the local
      [fazerRequisicaoAutenticada], suspended in [getSankhyaToken()] /
      [axios(config)];
    - [FRetry]: the same fetcher suspended in the retry delay, about to call
      [fazerRequisicaoAutenticada(fullUrl, method, data, retryCount + 1)];
    - [PEntry]: [buscarPrecoProduto] suspended in [redisCacheService.get];
    - [PBody], [PRetry]: the fetcher of [buscarPrecoProduto], as above;
    - [Adopt q]: a promise resolved with the promise [q] (an [async]
      function returning a promise), which follows [q];
    - [Finally k q]: [q.finally(() => pendingRequests.delete(k))];
    - [Fulfilled], [Rejected]: settled. *)
Inductive PState :=
| FBody (method fullUrl dataJson : string) (retryCount : nat)
| FRetry (method fullUrl dataJson : string) (retryCount : nat)
| PEntry (codProd : string) (codTabPreco : Z) (retryCount : nat)
| PBody (codProd : string) (codTabPreco : Z) (retryCount : nat)
| PRetry (codProd : string) (codTabPreco : Z) (retryCount : nat)
| Adopt (q : nat)
| Finally (key : string) (q : nat)
| Fulfilled (v : Val)
| Rejected (e : ReqError).

(** The module-level [pendingRequests] map, the promises (by allocation
    number), the Redis cache of prices, and the keys of the HTTP requests
    issued so far. *)
Record Heap := mkHeap {
  pendingRequests : gmap string nat;
  promises : gmap nat PState;
  nextId : nat;
  cache : gmap string Z;
  http : list string
}.

Definition set_pending (m : gmap string nat) (h : Heap) : Heap :=
  mkHeap m (promises h) (nextId h) (cache h) (http h).
Definition set_state (p : nat) (s : PState) (h : Heap) : Heap :=
  mkHeap (pendingRequests h) (<[p := s]> (promises h)) (nextId h) (cache h) (http h).
Definition set_cache (c : gmap string Z) (h : Heap) : Heap :=
  mkHeap (pendingRequests h) (promises h) (nextId h) c (http h).
Definition log_http (k : string) (h : Heap) : Heap :=
  mkHeap (pendingRequests h) (promises h) (nextId h) (cache h) (http h ++ [k]).

(** The request of an attempt is sent unless [getSankhyaToken()] threw. *)
Definition log_attempt (k : string) (o : Outcome) (h : Heap) : Heap :=
  match o with TokenError _ => h | _ => log_http k h end.

(** A new promise. *)
Definition alloc (s : PState) (h : Heap) : nat * Heap :=
  (nextId h, mkHeap (pendingRequests h) (<[nextId h := s]> (promises h))
                    (S (nextId h)) (cache h) (http h)).

(** [dedupedRequest(key, fetcher)], with [body] the suspended fetcher that
    [fetcher()] starts.  The result is the promise of the [async] function
    [dedupedRequest] itself, which adopts the promise it returns. *)
Definition dedupedRequest (key : string) (body : PState) (h : Heap) : nat * Heap :=
  match pendingRequests h !! key with
  | Some p => alloc (Adopt p) h
  | None =>
      let '(p1, h1) := alloc body h in
      let '(p2, h2) := alloc (Finally key p1) h1 in
      alloc (Adopt p2) (set_pending (<[key := p2]> (pendingRequests h2)) h2)
  end.

(** [`${method}:${fullUrl}:${JSON.stringify(data)}`] *)
Definition requestKey (method fullUrl dataJson : string) : string :=
  (method ++ ":" ++ fullUrl ++ ":" ++ dataJson)%string.

(** The local [fazerRequisicaoAutenticada(fullUrl, method, data, retryCount)]
    (src/lib/produtos-service.ts): the promise of the [async] function,
    which adopts the one of [dedupedRequest]. *)
Definition fazerRequisicaoAutenticada (method fullUrl dataJson : string) (retryCount : nat)
    (h : Heap) : nat * Heap :=
  let '(d, h1) := dedupedRequest (requestKey method fullUrl dataJson)
                    (FBody method fullUrl dataJson retryCount) h in
  alloc (Adopt d) h1.

Definition URL_PRECOS (codProd : string) (codTabPreco : Z) : string :=
  ("https://api.sandbox.sankhya.com.br/v1/precos/produto/" ++ codProd ++ "/tabela/"
   ++ pretty codTabPreco ++ "?pagina=1")%string.

(** [`preco:produto:${codProd}:tabela:${codTabPreco}`] *)
Definition precoCacheKey (codProd : string) (codTabPreco : Z) : string :=
  ("preco:produto:" ++ codProd ++ ":tabela:" ++ pretty codTabPreco)%string.

(** [`preco:${URL_PRECOS}`] *)
Definition precoRequestKey (codProd : string) (codTabPreco : Z) : string :=
  ("preco:" ++ URL_PRECOS codProd codTabPreco)%string.

(** [buscarPrecoProduto(codProd, codTabPreco, silent, retryCount)] up to its
    first [await]: the promise of the [async] function. *)
Definition buscarPrecoProduto (codProd : string) (codTabPreco : Z) (retryCount : nat)
    (h : Heap) : nat * Heap :=
  alloc (PEntry codProd codTabPreco retryCount) h.

(** The retry test of the [catch] block of the local
    [fazerRequisicaoAutenticada]: [true] means a recursive call after the
    delay. *)
Definition f_retries (o : Outcome) (retryCount : nat) : bool :=
  if is_auth_error o then Nat.ltb retryCount 1
  else is_transient o && Nat.ltb retryCount MAX_RETRIES.

(** The settled state of a fetcher of [fazerRequisicaoAutenticada] that does
    not retry. *)
Definition f_result (o : Outcome) : PState :=
  match o with
  | Ok d => Fulfilled (VData d)
  | _ => if is_auth_error o then Rejected SessionExpired else Rejected (final_error o)
  end.

(** [erro.code === 'ECONNABORTED' || erro.response?.status >= 500] *)
Definition preco_transient (o : Outcome) : bool :=
  match o with
  | HttpError s _ _ => (500 <=? s)%Z
  | NoResponse ECONNABORTED _ => true
  | _ => false
  end.

(** The retry test of [buscarPrecoProduto] ([MAX_RETRIES = 1]): after a
    401/403 with [retryCount >= 1] the code falls through to the second
    test. *)
Definition p_retries (o : Outcome) (retryCount : nat) : bool :=
  (is_auth_error o && Nat.ltb retryCount 1) || (preco_transient o && Nat.ltb retryCount 1).

(** The events: a new caller, the end of a suspended step, or the
    resolution of a promise that follows another one. *)
Inductive Ev :=
| CallF (method fullUrl dataJson : string)
| ResumeF (p : nat) (o : Outcome)
| WakeF (p : nat)
| CallPreco (codProd : string) (codTabPreco : Z)
| ReadCache (p : nat)
| ResumePreco (p : nat) (o : PrecoOutcome)
| WakePreco (p : nat)
| Settle (p : nat).

Definition settled_result (s : PState) : option PState :=
  match s with Fulfilled _ | Rejected _ => Some s | _ => None end.

Definition step (e : Ev) (h : Heap) : Heap :=
  match e with
  | CallF m u d => (fazerRequisicaoAutenticada m u d 0 h).2
  | CallPreco c t => (buscarPrecoProduto c t 0 h).2
  | ResumeF p o =>
      match promises h !! p with
      | Some (FBody m u d r) =>
          let h1 := log_attempt (requestKey m u d) o h in
          if f_retries o r then set_state p (FRetry m u d r) h1
          else set_state p (f_result o) h1
      | _ => h
      end
  | WakeF p =>
      match promises h !! p with
      | Some (FRetry m u d r) =>
          let '(q, h1) := fazerRequisicaoAutenticada m u d (S r) h in
          set_state p (Adopt q) h1
      | _ => h
      end
  | ReadCache p =>
      match promises h !! p with
      | Some (PEntry c t r) =>
          match cache h !! precoCacheKey c t with
          | Some v => set_state p (Fulfilled (VNum v)) h
          | None =>
              let '(q, h1) := dedupedRequest (precoRequestKey c t) (PBody c t r) h in
              set_state p (Adopt q) h1
          end
      | _ => h
      end
  | ResumePreco p o =>
      match promises h !! p with
      | Some (PBody c t r) =>
          match o with
          | PrecoOk v =>
              set_state p (Fulfilled (VNum v))
                (set_cache (<[precoCacheKey c t := v]> (cache h))
                   (log_http (precoRequestKey c t) h))
          | PrecoErr e =>
              let h1 := log_attempt (precoRequestKey c t) e h in
              if p_retries e r then set_state p (PRetry c t r) h1
              else set_state p (Fulfilled (VNum 0)) h1
          end
      | _ => h
      end
  | WakePreco p =>
      match promises h !! p with
      | Some (PRetry c t r) =>
          let '(q, h1) := buscarPrecoProduto c t (S r) h in
          set_state p (Adopt q) h1
      | _ => h
      end
  | Settle p =>
      match promises h !! p with
      | Some (Adopt q) =>
          match promises h !! q ≫= settled_result with
          | Some s => set_state p s h
          | None => h
          end
      | Some (Finally k q) =>
          match promises h !! q ≫= settled_result with
          | Some s => set_state p s (set_pending (delete k (pendingRequests h)) h)
          | None => h
          end
      | _ => h
      end
  end.

Definition run (evs : list Ev) (h : Heap) : Heap := fold_left (fun h e => step e h) evs h.

Definition settled (h : Heap) (p : nat) : bool :=
  match promises h !! p with Some (Fulfilled _) | Some (Rejected _) => true | _ => false end.

(** No fetcher and no [.finally] of the request key [k] in a promise. *)
Definition state_free (k : string) (s : PState) : bool :=
  match s with
  | FBody m u d _ | FRetry m u d _ => negb (String.eqb (requestKey m u d) k)
  | PBody c t _ | PRetry c t _ => negb (String.eqb (precoRequestKey c t) k)
  | Finally k' _ => negb (String.eqb k' k)
  | _ => true
  end.

Definition key_free (k : string) (h : Heap) : bool :=
  forallb (fun ps => state_free k ps.2) (map_to_list (promises h)).

Definition empty_heap : Heap := mkHeap ∅ ∅ 0 ∅ [].

End LocalRequest.

Module LocalRequestFacts.
Import Executor LocalRequest.

(** Number of HTTP requests issued with key [k]. *)
Definition count_key (k : string) (l : list string) : nat :=
  length (filter (fun x => String.eqb x k = true) l).

Section Stall.
Variable key : string.
Variable p2 : nat.

(** [S] is a set of promises each of which follows another member: none of
    them can ever settle.  [pendingRequests] keeps [key] on the member [p2], no
    fetcher or [.finally] outside [S] belongs to [key], and [c] requests
    with [key] were issued. *)
Record Inv (c : nat) (h : Heap) (S : nat -> Prop) : Prop := {
  inv_lt : forall p, S p -> p < nextId h;
  inv_stuck : forall p, S p -> exists q, S q /\
      (promises h !! p = Some (Adopt q) \/ exists k, promises h !! p = Some (Finally k q));
  inv_pending : pendingRequests h !! key = Some p2 /\ S p2;
  inv_free : forall p s, promises h !! p = Some s -> S p \/ state_free key s = true;
  inv_count : count_key key (http h) = c
}.

Lemma inv_not_settled c h S p : Inv c h S -> S p -> settled h p = false.
Proof.
  intros I Hp. destruct (inv_stuck _ _ _ I p Hp) as [q [_ [E|[k E]]]];
    unfold settled; rewrite E; reflexivity.
Qed.

Lemma inv_no_settled_member c h S p s : Inv c h S -> S p ->
  promises h !! p ≫= settled_result = Some s -> False.
Proof.
  intros I Hp E. destruct (inv_stuck _ _ _ I p Hp) as [q [_ [E'|[k E']]]];
    rewrite E' in E; discriminate.
Qed.

Lemma inv_member_shape c h S p s : Inv c h S -> promises h !! p = Some s ->
  match s with Adopt _ | Finally _ _ => False | _ => True end -> ~ S p.
Proof.
  intros I E Hs Hp. destruct (inv_stuck _ _ _ I p Hp) as [q [_ [E'|[k E']]]];
    rewrite E' in E; injection E as <-; exact Hs.
Qed.

Lemma inv_alloc c h S s : Inv c h S -> state_free key s = true ->
  Inv c (alloc s h).2 S.
Proof.
  intros I Hs. destruct I as [I1 I2 I3 I4 I5]. constructor; cbn [alloc snd pendingRequests promises nextId http].
  - intros p Hp. specialize (I1 p Hp). lia.
  - intros p Hp. destruct (I2 p Hp) as [q [Hq E]]. exists q. split; [exact Hq|].
    rewrite lookup_insert_ne by (specialize (I1 p Hp); lia). exact E.
  - exact I3.
  - intros p s' E. destruct (decide (p = nextId h)) as [->|Hne].
    + rewrite lookup_insert_eq in E. injection E as <-. right. exact Hs.
    + rewrite lookup_insert_ne in E by congruence. exact (I4 p s' E).
  - exact I5.
Qed.

Lemma inv_alloc_adopt c h S q : Inv c h S -> S q ->
  Inv c (alloc (Adopt q) h).2 (fun x => S x \/ x = nextId h).
Proof.
  intros I Hq. destruct I as [I1 I2 I3 I4 I5]. constructor; cbn [alloc snd pendingRequests promises nextId http].
  - intros p [Hp| ->]; [specialize (I1 p Hp)|]; lia.
  - intros p [Hp| ->].
    + destruct (I2 p Hp) as [q' [Hq' E]]. exists q'. split; [left; exact Hq'|].
      rewrite lookup_insert_ne by (specialize (I1 p Hp); lia). exact E.
    + exists q. split; [left; exact Hq|]. left. apply lookup_insert_eq.
  - destruct I3 as [E Hp2]. split; [exact E|left; exact Hp2].
  - intros p s' E. destruct (decide (p = nextId h)) as [->|Hne].
    + left. right. reflexivity.
    + rewrite lookup_insert_ne in E by congruence. destruct (I4 p s' E) as [H|H]; [left; left|right]; exact H.
  - exact I5.
Qed.

Lemma inv_set_state c h S p s : Inv c h S -> ~ S p -> state_free key s = true ->
  Inv c (set_state p s h) S.
Proof.
  intros I Hp Hs. destruct I as [I1 I2 I3 I4 I5]. constructor; cbn [set_state pendingRequests promises nextId http].
  - exact I1.
  - intros p' Hp'. destruct (I2 p' Hp') as [q [Hq E]]. exists q. split; [exact Hq|].
    rewrite lookup_insert_ne by congruence. exact E.
  - exact I3.
  - intros p' s' E. destruct (decide (p' = p)) as [->|Hne].
    + rewrite lookup_insert_eq in E. injection E as <-. right. exact Hs.
    + rewrite lookup_insert_ne in E by congruence. exact (I4 p' s' E).
  - exact I5.
Qed.

Lemma inv_set_adopt c h S p q : Inv c h S -> S q -> Inv c (set_state p (Adopt q) h) S.
Proof.
  intros I Hq. destruct I as [I1 I2 I3 I4 I5]. constructor; cbn [set_state pendingRequests promises nextId http].
  - exact I1.
  - intros p' Hp'. destruct (decide (p' = p)) as [->|Hne].
    + exists q. split; [exact Hq|]. left. apply lookup_insert_eq.
    + destruct (I2 p' Hp') as [q' [Hq' E]]. exists q'. split; [exact Hq'|].
      rewrite lookup_insert_ne by congruence. exact E.
  - exact I3.
  - intros p' s' E. destruct (decide (p' = p)) as [->|Hne].
    + rewrite lookup_insert_eq in E. injection E as <-. right. reflexivity.
    + rewrite lookup_insert_ne in E by congruence. exact (I4 p' s' E).
  - exact I5.
Qed.

Lemma inv_log c h S k : Inv c h S -> k <> key -> Inv c (log_http k h) S.
Proof.
  intros I Hk. destruct I as [I1 I2 I3 I4 I5]. constructor; cbn [log_http pendingRequests promises nextId http]; try assumption.
  unfold count_key in *. rewrite filter_app, length_app, I5, filter_cons_False.
  - cbn. lia.
  - rewrite (proj2 (String.eqb_neq k key) Hk). discriminate.
Qed.

Lemma inv_cache c h S m : Inv c h S -> Inv c (set_cache m h) S.
Proof. intros [I1 I2 I3 I4 I5]. constructor; assumption. Qed.

Lemma inv_pending_insert c h S k p : Inv c h S -> k <> key ->
  Inv c (set_pending (<[k := p]> (pendingRequests h)) h) S.
Proof.
  intros [I1 I2 I3 I4 I5] Hk. constructor; cbn [set_pending pendingRequests promises nextId http]; try assumption.
  rewrite lookup_insert_ne by congruence. exact I3.
Qed.

Lemma inv_pending_delete c h S k : Inv c h S -> k <> key ->
  Inv c (set_pending (delete k (pendingRequests h)) h) S.
Proof.
  intros [I1 I2 I3 I4 I5] Hk. constructor; cbn [set_pending pendingRequests promises nextId http]; try assumption.
  rewrite lookup_delete_ne by congruence. exact I3.
Qed.

(** [dedupedRequest] on another key leaves [S] as it is; on [key] it joins
    the pending promise, and the new promise is stuck too. *)
Lemma inv_deduped c h S k body : Inv c h S ->
  (k <> key -> state_free key body = true) ->
  exists S', (forall x, S x -> S' x) /\ Inv c (dedupedRequest k body h).2 S' /\
    (k = key -> S' (dedupedRequest k body h).1) /\ (k <> key -> S' = S).
Proof.
  intros I Hb. unfold dedupedRequest.
  destruct (String.eq_dec k key) as [->|Hk].
  - destruct (inv_pending _ _ _ I) as [E Hp2]. rewrite E.
    exists (fun x => S x \/ x = nextId h). split; [intros x Hx; left; exact Hx|].
    split; [apply inv_alloc_adopt; assumption|]. split; [intros _; right; reflexivity|].
    intros Hn; congruence.
  - exists S. split; [auto|]. split; [|split; [intros; congruence|auto]].
    destruct (pendingRequests h !! k) as [p|].
    + apply inv_alloc; [exact I|reflexivity].
    + cbn [alloc fst snd].
      apply inv_alloc; [|reflexivity].
      apply (inv_pending_insert _ _ _ k); [|exact Hk].
      apply (inv_alloc _ _ _ (Finally k (nextId h))); [|cbn; destruct (String.eqb_spec k key); [congruence|reflexivity]].
      apply inv_alloc; [exact I|exact (Hb Hk)].
Qed.

Lemma inv_fazer c h S m u d r : Inv c h S ->
  exists S', (forall x, S x -> S' x) /\ Inv c (fazerRequisicaoAutenticada m u d r h).2 S' /\
    (requestKey m u d = key -> S' (fazerRequisicaoAutenticada m u d r h).1) /\
    (requestKey m u d <> key -> S' = S).
Proof.
  intros I. unfold fazerRequisicaoAutenticada.
  destruct (inv_deduped c h S (requestKey m u d) (FBody m u d r) I) as [S' [Hs [I' [Hin Heq]]]].
  { intros Hk. cbn. destruct (String.eqb_spec (requestKey m u d) key); [congruence|reflexivity]. }
  destruct (dedupedRequest (requestKey m u d) (FBody m u d r) h) as [dp h1] eqn:E.
  cbn [fst snd] in *.
  destruct (String.eq_dec (requestKey m u d) key) as [Hk|Hk].
  - exists (fun x => S' x \/ x = nextId h1). split; [intros x Hx; left; auto|].
    split; [apply inv_alloc_adopt; auto|]. split; [intros _; right; reflexivity|congruence].
  - exists S'. split; [exact Hs|]. split; [apply inv_alloc; [exact I'|reflexivity]|].
    split; [congruence|intros _; exact (Heq Hk)].
Qed.

Lemma inv_step c h S e : Inv c h S ->
  exists S', (forall x, S x -> S' x) /\ Inv c (step e h) S'.
Proof.
  intros I. destruct e as [m u d|p o|p|cp t|p|p o|p|p]; cbn [step].
  - destruct (inv_fazer c h S m u d 0 I) as [S' [H1 [H2 _]]]. eauto.
  - destruct (promises h !! p) as [s|] eqn:E; [|eauto].
    destruct s as [m u d r| | | | | | | |]; try (exists S; split; [auto|exact I]).
    pose proof (inv_member_shape _ _ _ _ _ I E Logic.I) as Hp.
    assert (Hk : requestKey m u d <> key).
    { destruct (inv_free _ _ _ I p _ E) as [H|H]; [contradiction|].
      cbn in H. destruct (String.eqb_spec (requestKey m u d) key); [discriminate|assumption]. }
    assert (I1 : Inv c (log_attempt (requestKey m u d) o h) S).
    { destruct o; try (apply inv_log; assumption). exact I. }
    exists S. split; [auto|].
    destruct (f_retries o r); apply inv_set_state; try assumption.
    + cbn. destruct (String.eqb_spec (requestKey m u d) key); [congruence|reflexivity].
    + unfold f_result. destruct o; try reflexivity; destruct (is_auth_error _); reflexivity.
  - destruct (promises h !! p) as [s|] eqn:E; [|eauto].
    destruct s as [| m u d r| | | | | | |]; try (exists S; split; [auto|exact I]).
    pose proof (inv_member_shape _ _ _ _ _ I E Logic.I) as Hp.
    assert (Hk : requestKey m u d <> key).
    { destruct (inv_free _ _ _ I p _ E) as [H|H]; [contradiction|].
      cbn in H. destruct (String.eqb_spec (requestKey m u d) key); [discriminate|assumption]. }
    destruct (inv_fazer c h S m u d (Datatypes.S r) I) as [S' [H1 [H2 [_ H4]]]].
    rewrite (H4 Hk) in H2.
    destruct (fazerRequisicaoAutenticada m u d (Datatypes.S r) h) as [q h1]. cbn [fst snd] in *.
    exists S. split; [auto|]. apply inv_set_state; [exact H2|exact Hp|reflexivity].
  - exists S. split; [auto|]. apply inv_alloc; [exact I|reflexivity].
  - destruct (promises h !! p) as [s|] eqn:E; [|eauto].
    destruct s as [| | cp t r| | | | | |]; try (exists S; split; [auto|exact I]).
    pose proof (inv_member_shape _ _ _ _ _ I E Logic.I) as Hp.
    destruct (cache h !! precoCacheKey cp t) as [v|].
    + exists S. split; [auto|]. apply inv_set_state; [exact I|exact Hp|reflexivity].
    + destruct (inv_deduped c h S (precoRequestKey cp t) (PBody cp t r) I) as [S' [H1 [H2 [H3 H4]]]].
      { intros Hk. cbn. destruct (String.eqb_spec (precoRequestKey cp t) key); [congruence|reflexivity]. }
      destruct (dedupedRequest (precoRequestKey cp t) (PBody cp t r) h) as [q h1]. cbn [fst snd] in *.
      exists S'. split; [exact H1|].
      destruct (String.eq_dec (precoRequestKey cp t) key) as [Hk|Hk].
      * apply inv_set_adopt; [exact H2|exact (H3 Hk)].
      * rewrite (H4 Hk) in H2 |- *. apply inv_set_state; [exact H2|exact Hp|reflexivity].
  - destruct (promises h !! p) as [s|] eqn:E; [|eauto].
    destruct s as [| | | cp t r| | | | |]; try (exists S; split; [auto|exact I]).
    pose proof (inv_member_shape _ _ _ _ _ I E Logic.I) as Hp.
    assert (Hk : precoRequestKey cp t <> key).
    { destruct (inv_free _ _ _ I p _ E) as [H|H]; [contradiction|].
      cbn in H. destruct (String.eqb_spec (precoRequestKey cp t) key); [discriminate|assumption]. }
    exists S. split; [auto|].
    destruct o as [v|o].
    + apply inv_set_state; [|exact Hp|reflexivity].
      apply inv_cache, inv_log; assumption.
    + assert (I1 : Inv c (log_attempt (precoRequestKey cp t) o h) S).
      { destruct o; try (apply inv_log; assumption). exact I. }
      destruct (p_retries o r); apply inv_set_state; try assumption; [|reflexivity].
      cbn. destruct (String.eqb_spec (precoRequestKey cp t) key); [congruence|reflexivity].
  - destruct (promises h !! p) as [s|] eqn:E; [|eauto].
    destruct s as [| | | | cp t r| | | |]; try (exists S; split; [auto|exact I]).
    pose proof (inv_member_shape _ _ _ _ _ I E Logic.I) as Hp.
    exists S. split; [auto|]. unfold buscarPrecoProduto. cbn [alloc fst].
    apply inv_set_state; [|exact Hp|reflexivity].
    apply (inv_alloc _ _ _ (PEntry cp t (Datatypes.S r))); [exact I|reflexivity].
  - destruct (promises h !! p) as [s|] eqn:E; [|eauto].
    destruct s as [| | | | | q|k q| |]; try (exists S; split; [auto|exact I]).
    + destruct (promises h !! q ≫= settled_result) as [s|] eqn:Eq; [|exists S; split; [auto|exact I]].
      assert (Hp : ~ S p).
      { intros Hp. destruct (inv_stuck _ _ _ I p Hp) as [q' [Hq' [E'|[k E']]]]; rewrite E in E'; [|discriminate].
        injection E' as <-. exact (inv_no_settled_member _ _ _ _ _ I Hq' Eq). }
      exists S. split; [auto|]. apply inv_set_state; [exact I|exact Hp|].
      destruct (promises h !! q) as [[]|]; cbn in Eq; try discriminate; injection Eq as <-; reflexivity.
    + destruct (promises h !! q ≫= settled_result) as [s|] eqn:Eq; [|exists S; split; [auto|exact I]].
      assert (Hp : ~ S p).
      { intros Hp. destruct (inv_stuck _ _ _ I p Hp) as [q' [Hq' [E'|[k' E']]]]; rewrite E in E'; [discriminate|].
        injection E' as <- <-. exact (inv_no_settled_member _ _ _ _ _ I Hq' Eq). }
      assert (Hk : k <> key).
      { destruct (inv_free _ _ _ I p _ E) as [H|H]; [contradiction|].
        cbn in H. destruct (String.eqb_spec k key); [discriminate|assumption]. }
      exists S. split; [auto|]. apply inv_set_state; [|exact Hp|].
      * apply inv_pending_delete; assumption.
      * destruct (promises h !! q) as [[]|]; cbn in Eq; try discriminate; injection Eq as <-; reflexivity.
Qed.

Lemma inv_run c evs : forall h S, Inv c h S ->
  exists S', (forall x, S x -> S' x) /\ Inv c (run evs h) S'.
Proof.
  induction evs as [|e evs IH]; intros h S I; [exists S; split; auto|].
  cbn [run fold_left]. destruct (inv_step c h S e I) as [S1 [H1 I1]].
  destruct (IH (step e h) S1 I1) as [S2 [H2 I2]].
  exists S2. split; [auto|exact I2].
Qed.

End Stall.

Lemma key_free_spec k h p s :
  key_free k h = true -> promises h !! p = Some s -> state_free k s = true.
Proof.
  unfold key_free. rewrite forallb_forall. intros H E.
  apply (H (p, s)). apply list_elem_of_In, elem_of_map_to_list. exact E.
Qed.

Lemma fazer_fresh m u d r h :
  pendingRequests h !! requestKey m u d = None ->
  let n := nextId h in
  fazerRequisicaoAutenticada m u d r h =
    (S (S (S n)),
     mkHeap (<[requestKey m u d := S n]> (pendingRequests h))
       (<[S (S (S n)) := Adopt (S (S n))]>
         (<[S (S n) := Adopt (S n)]>
           (<[S n := Finally (requestKey m u d) n]>
             (<[n := FBody m u d r]> (promises h)))))
       (S (S (S (S n)))) (cache h) (http h)).
Proof.
  intros E. unfold fazerRequisicaoAutenticada, dedupedRequest. rewrite E. reflexivity.
Qed.

Lemma fazer_join m u d r h p :
  pendingRequests h !! requestKey m u d = Some p ->
  let n := nextId h in
  fazerRequisicaoAutenticada m u d r h =
    (S n, mkHeap (pendingRequests h)
            (<[S n := Adopt n]> (<[n := Adopt p]> (promises h)))
            (S (S n)) (cache h) (http h)).
Proof.
  intros E. unfold fazerRequisicaoAutenticada, dedupedRequest. rewrite E. reflexivity.
Qed.

Ltac heap_simpl :=
  cbn [set_state set_pending set_cache log_http alloc fst snd pendingRequests promises nextId cache http].

Ltac lookups :=
  repeat first [rewrite lookup_insert_eq | rewrite lookup_insert_ne by lia].

(** The fetcher of the local [fazerRequisicaoAutenticada] starts a retry
    (a 401/403 on the first attempt, or a transient failure on one of the
    first two): the recursive call has the same request key, which is still
    in [pendingRequests] since the [.finally] only runs once the fetcher
    settles, so [dedupedRequest] hands back the pending promise and the
    fetcher ends up following itself.  From then on, whatever happens
    (other callers, other keys, answers, timers), the caller's promise
    never settles, the key stays in [pendingRequests] on the same promise,
    no further request with that key is sent, and every later caller with
    the same arguments waits forever as well. *)
Theorem fazer_retry_never_settles (h : Heap) (m u d : string) (o : Outcome) (rest : list Ev) :
  pendingRequests h !! requestKey m u d = None ->
  key_free (requestKey m u d) h = true ->
  f_retries o 0 = true ->
  let c := fazerRequisicaoAutenticada m u d 0 h in
  let h2 := run rest (run [ResumeF (nextId h) o; WakeF (nextId h)] c.2) in
  settled h2 c.1 = false /\
  pendingRequests h2 !! requestKey m u d = Some (S (nextId h)) /\
  count_key (requestKey m u d) (http h2) = S (count_key (requestKey m u d) (http h)) /\
  (forall rest', let c' := fazerRequisicaoAutenticada m u d 0 h2 in
     settled (run rest' c'.2) c'.1 = false).
Proof.
  intros Hp Hf Hr. set (k := requestKey m u d). set (n := nextId h).
  assert (Ho : match o with TokenError _ => False | _ => True end).
  { destruct o; try exact Logic.I. discriminate. }
  assert (Hlog : forall h', log_attempt k o h' = log_http k h').
  { intros h'. destruct o; [reflexivity..|contradiction]. }
  cbn zeta. rewrite (fazer_fresh m u d 0 h Hp). fold k n. cbn [fst snd].
  set (h2 := run [ResumeF n o; WakeF n] _).
  set (St := fun x => n <= x < n + 6).
  assert (I : Inv k (S n) (S (count_key k (http h))) h2 St).
  { subst h2. unfold run. cbn [fold_left].
    unfold step at 2. cbn [promises]. lookups. rewrite Hr, Hlog.
    unfold step at 1. cbn [promises set_state log_http]. lookups.
    rewrite (fazer_join m u d 1 _ (S n)) by (cbn; lookups; reflexivity).
    cbn [nextId fst snd pendingRequests promises cache http set_state].
    constructor; subst St; cbn [set_state log_http pendingRequests promises nextId http].
    - intros p Hp'. lia.
    - intros p Hp'.
      assert (p = n \/ p = S n \/ p = S (S n) \/ p = S (S (S n)) \/ p = S (S (S (S n))) \/ p = S (S (S (S (S n)))))
        as Hc by lia.
      destruct Hc as [->|[->|[->|[->|[->| ->]]]]].
      + exists (S (S (S (S (S n))))). split; [lia|]. left. lookups. reflexivity.
      + exists n. split; [lia|]. right. exists k. lookups. reflexivity.
      + exists (S n). split; [lia|]. left. lookups. reflexivity.
      + exists (S (S n)). split; [lia|]. left. lookups. reflexivity.
      + exists (S n). split; [lia|]. left. lookups. reflexivity.
      + exists (S (S (S (S n)))). split; [lia|]. left. lookups. reflexivity.
    - split; [lookups; reflexivity|lia].
    - intros p s E. destruct (decide (n <= p < n + 6)) as [Hin|Hout]; [left; exact Hin|].
      right. rewrite !lookup_insert_ne in E by lia. exact (key_free_spec k h p s Hf E).
    - unfold count_key. rewrite filter_app, length_app, filter_cons_True; [cbn; lia|].
      apply String.eqb_refl. }
  destruct (inv_run _ _ _ rest _ _ I) as [S' [HS I']].
  split; [|split; [|split]].
  - eapply inv_not_settled; [exact I'|apply HS; unfold St; lia].
  - apply (inv_pending _ _ _ _ _ I').
  - apply (inv_count _ _ _ _ _ I').
  - intros rest'. cbn zeta.
    destruct (inv_fazer _ _ _ _ _ m u d 0 I') as [S2 [_ [I2 [Hin _]]]].
    destruct (inv_run _ _ _ rest' _ _ I2) as [S3 [HS3 I3]].
    eapply inv_not_settled; [exact I3|apply HS3, Hin; reflexivity].
Qed.


Definition url_produtos : string :=
  "https://api.sandbox.sankhya.com.br/gateway/v1/mge/service.sbr?serviceName=CRUDServiceProvider.loadRecords&outputType=json".

Lemma fazer_retry_never_settles_witness :
  pendingRequests empty_heap !! requestKey "POST" url_produtos "{}" = None /\
  key_free (requestKey "POST" url_produtos "{}") empty_heap = true /\
  f_retries (HttpError 401 EmptyString "Unauthorized") 0 = true /\
  settled (run [] (run [ResumeF 0 (HttpError 401 EmptyString "Unauthorized"); WakeF 0]
            (fazerRequisicaoAutenticada "POST" url_produtos "{}" 0 empty_heap).2))
          (fazerRequisicaoAutenticada "POST" url_produtos "{}" 0 empty_heap).1 = false.
Proof.
  split; [reflexivity|]. split; [reflexivity|]. split; [reflexivity|].
  exact (proj1 (fazer_retry_never_settles empty_heap "POST" url_produtos "{}"
                  (HttpError 401 EmptyString "Unauthorized") [] eq_refl eq_refl eq_refl)).
Defined.

Lemma settled_result_f_result o : settled_result (f_result o) = Some (f_result o).
Proof.
  unfold f_result. destruct o; try reflexivity;
    match goal with |- context [if ?b then _ else _] => destruct b end; reflexivity.
Qed.

Lemma promises_log_attempt k o h : promises (log_attempt k o h) = promises h.
Proof. destruct o; reflexivity. Qed.

Lemma pending_log_attempt k o h : pendingRequests (log_attempt k o h) = pendingRequests h.
Proof. destruct o; reflexivity. Qed.

Lemma lr_run_cons e evs h : run (e :: evs) h = run evs (step e h).
Proof. reflexivity. Qed.

Lemma step_resumeF_final h p m u d r o :
  promises h !! p = Some (FBody m u d r) -> f_retries o r = false ->
  step (ResumeF p o) h = set_state p (f_result o) (log_attempt (requestKey m u d) o h).
Proof. intros E Hr. cbn [step]. rewrite E, Hr. reflexivity. Qed.

Lemma step_settle_adopt h p q s :
  promises h !! p = Some (Adopt q) -> promises h !! q = Some s -> settled_result s = Some s ->
  step (Settle p) h = set_state p s h.
Proof. intros E Eq Hs. cbn [step]. rewrite E, Eq. cbn. rewrite Hs. reflexivity. Qed.

Lemma step_settle_finally h p k q s :
  promises h !! p = Some (Finally k q) -> promises h !! q = Some s -> settled_result s = Some s ->
  step (Settle p) h = set_state p s (set_pending (delete k (pendingRequests h)) h).
Proof. intros E Eq Hs. cbn [step]. rewrite E, Eq. cbn. rewrite Hs. reflexivity. Qed.

(** Without a retry the promise chain unwinds: after the answer and the
    three resolutions, the caller's promise holds the data or the error of
    the single attempt, the [.finally] has removed the key, and
    [pendingRequests] is back to what it was. *)
Theorem fazer_no_retry_settles (h : Heap) (m u d : string) (o : Outcome) :
  pendingRequests h !! requestKey m u d = None ->
  f_retries o 0 = false ->
  let c := fazerRequisicaoAutenticada m u d 0 h in
  let n := nextId h in
  let h' := run [ResumeF n o; Settle (S n); Settle (S (S n)); Settle (S (S (S n)))] c.2 in
  promises h' !! c.1 = Some (f_result o) /\
  pendingRequests h' = pendingRequests h.
Proof.
  intros Hp Hr. cbn zeta. rewrite (fazer_fresh m u d 0 h Hp). cbn [fst snd].
  set (k := requestKey m u d). set (n := nextId h).
  pose proof (settled_result_f_result o) as Hs.
  rewrite lr_run_cons, (step_resumeF_final _ n m u d 0 o) by (cbn [promises]; lookups; first [reflexivity|exact Hr]).
  fold k. set (h1 := set_state n (f_result o) _).
  rewrite lr_run_cons, (step_settle_finally h1 (S n) k n (f_result o))
    by (subst h1; cbn [set_state promises]; rewrite ?promises_log_attempt; cbn [promises];
        lookups; first [reflexivity|exact Hs]).
  rewrite lr_run_cons, (step_settle_adopt _ (S (S n)) (S n) (f_result o))
    by (subst h1; cbn [set_state set_pending promises]; rewrite ?promises_log_attempt; cbn [promises];
        lookups; first [reflexivity|exact Hs]).
  rewrite lr_run_cons, (step_settle_adopt _ (S (S (S n))) (S (S n)) (f_result o))
    by (subst h1; cbn [set_state set_pending promises]; rewrite ?promises_log_attempt; cbn [promises];
        lookups; first [reflexivity|exact Hs]).
  cbn [run fold_left]. subst h1. cbn [set_state set_pending promises pendingRequests].
  split; [lookups; reflexivity|].
  rewrite pending_log_attempt. cbn [pendingRequests]. apply delete_insert_id. exact Hp.
Qed.

Lemma fazer_no_retry_settles_witness :
  pendingRequests empty_heap !! requestKey "POST" url_produtos "{}" = None /\
  f_retries (Ok "resposta") 0 = false /\
  promises (run [ResumeF 0 (Ok "resposta"); Settle 1; Settle 2; Settle 3]
              (fazerRequisicaoAutenticada "POST" url_produtos "{}" 0 empty_heap).2)
    !! (fazerRequisicaoAutenticada "POST" url_produtos "{}" 0 empty_heap).1
    = Some (Fulfilled (VData "resposta")).
Proof.
  split; [reflexivity|]. split; [reflexivity|].
  exact (proj1 (fazer_no_retry_settles empty_heap "POST" url_produtos "{}" (Ok "resposta") eq_refl eq_refl)).
Defined.


Lemma deduped_fresh k body h :
  pendingRequests h !! k = None ->
  let n := nextId h in
  dedupedRequest k body h =
    (S (S n),
     mkHeap (<[k := S n]> (pendingRequests h))
       (<[S (S n) := Adopt (S n)]> (<[S n := Finally k n]> (<[n := body]> (promises h))))
       (S (S (S n))) (cache h) (http h)).
Proof. intros E. unfold dedupedRequest. rewrite E. reflexivity. Qed.

Lemma deduped_join k body h p :
  pendingRequests h !! k = Some p ->
  dedupedRequest k body h =
    (nextId h, mkHeap (pendingRequests h) (<[nextId h := Adopt p]> (promises h))
                 (S (nextId h)) (cache h) (http h)).
Proof. intros E. unfold dedupedRequest. rewrite E. reflexivity. Qed.

Lemma step_read_miss h p c t r :
  promises h !! p = Some (PEntry c t r) -> cache h !! precoCacheKey c t = None ->
  step (ReadCache p) h =
    set_state p (Adopt (dedupedRequest (precoRequestKey c t) (PBody c t r) h).1)
      (dedupedRequest (precoRequestKey c t) (PBody c t r) h).2.
Proof.
  intros E Ec. cbn [step]. rewrite E, Ec.
  destruct (dedupedRequest _ _ _). reflexivity.
Qed.

Lemma step_resumeP_retry h p c t r e :
  promises h !! p = Some (PBody c t r) -> p_retries e r = true ->
  step (ResumePreco p (PrecoErr e)) h = set_state p (PRetry c t r) (log_attempt (precoRequestKey c t) e h).
Proof. intros E Hr. cbn [step]. rewrite E, Hr. reflexivity. Qed.

Lemma step_wakeP h p c t r :
  promises h !! p = Some (PRetry c t r) ->
  step (WakePreco p) h = set_state p (Adopt (nextId h)) (alloc (PEntry c t (S r)) h).2.
Proof. intros E. cbn [step]. rewrite E. reflexivity. Qed.

(** [buscarPrecoProduto] has the same defect: after a 401/403 or a
    transient failure on the first attempt, the retry finds no cached
    price, [dedupedRequest] hands back the pending promise of the same
    request key, and the fetcher follows itself.  The caller's promise then
    never settles, the key never leaves [pendingRequests], no further
    request for that price is sent, and a later caller that finds no cached
    price waits forever too. *)
Theorem preco_retry_never_settles (h : Heap) (c : string) (t : Z) (o : Outcome) (rest : list Ev) :
  pendingRequests h !! precoRequestKey c t = None ->
  cache h !! precoCacheKey c t = None ->
  key_free (precoRequestKey c t) h = true ->
  p_retries o 0 = true ->
  let b := buscarPrecoProduto c t 0 h in
  let n := nextId h in
  let h2 := run rest (run [ReadCache n; ResumePreco (S n) (PrecoErr o); WakePreco (S n);
                           ReadCache (S (S (S (S n))))] b.2) in
  settled h2 b.1 = false /\
  pendingRequests h2 !! precoRequestKey c t = Some (S (S n)) /\
  count_key (precoRequestKey c t) (http h2) = S (count_key (precoRequestKey c t) (http h)) /\
  (cache h2 !! precoCacheKey c t = None -> forall rest',
     let b' := buscarPrecoProduto c t 0 h2 in
     settled (run rest' (step (ReadCache b'.1) b'.2)) b'.1 = false).
Proof.
  intros Hp Hc Hf Hr. set (k := precoRequestKey c t). set (n := nextId h).
  assert (Hlog : forall h', log_attempt k o h' = log_http k h').
  { intros h'. destruct o; try reflexivity. discriminate. }
  cbn zeta. unfold buscarPrecoProduto at 1 2. cbn [alloc fst snd]. fold n.
  set (h2 := run [ReadCache n; _; _; _] _).
  set (St := fun x => n <= x < n + 6).
  assert (I : Inv k (S (S n)) (S (count_key k (http h))) h2 St).
  { subst h2. rewrite !lr_run_cons.
    rewrite (step_read_miss _ n c t 0)
      by (cbn [promises cache]; lookups; first [reflexivity|exact Hc]).
    fold k. rewrite deduped_fresh by exact Hp. cbn [nextId fst snd].
    rewrite (step_resumeP_retry _ (S n) c t 0 o)
      by (cbn [set_state promises]; lookups; first [reflexivity|exact Hr]).
    rewrite Hlog.
    rewrite (step_wakeP _ (S n) c t 0) by (cbn [set_state log_http promises]; lookups; reflexivity).
    cbn [set_state log_http alloc snd nextId].
    rewrite (step_read_miss _ (S (S (S (S n)))) c t 1)
      by (cbn [set_state promises cache]; lookups; first [reflexivity|exact Hc]).
    fold k. rewrite (deduped_join k _ _ (S (S n))) by (heap_simpl; lookups; reflexivity).
    cbn [run fold_left set_state fst snd nextId pendingRequests promises http].
    constructor; subst St; cbn [set_state log_http pendingRequests promises nextId http].
    - intros p Hp'. lia.
    - intros p Hp'.
      assert (p = n \/ p = S n \/ p = S (S n) \/ p = S (S (S n)) \/ p = S (S (S (S n))) \/ p = S (S (S (S (S n)))))
        as Hcase by lia.
      destruct Hcase as [->|[->|[->|[->|[->| ->]]]]].
      + exists (S (S (S n))). split; [lia|]. left. lookups. reflexivity.
      + exists (S (S (S (S n)))). split; [lia|]. left. lookups. reflexivity.
      + exists (S n). split; [lia|]. right. exists k. lookups. reflexivity.
      + exists (S (S n)). split; [lia|]. left. lookups. reflexivity.
      + exists (S (S (S (S (S n))))). split; [lia|]. left. lookups. reflexivity.
      + exists (S (S n)). split; [lia|]. left. lookups. reflexivity.
    - split; [lookups; reflexivity|lia].
    - intros p s E. destruct (decide (n <= p < n + 6)) as [Hin|Hout]; [left; exact Hin|].
      right. rewrite !lookup_insert_ne in E by lia. exact (key_free_spec k h p s Hf E).
    - unfold count_key. rewrite filter_app, length_app, filter_cons_True; [cbn; lia|].
      apply String.eqb_refl. }
  destruct (inv_run _ _ _ rest _ _ I) as [S' [HS I']].
  split; [|split; [|split]].
  - eapply inv_not_settled; [exact I'|apply HS; unfold St; lia].
  - apply (inv_pending _ _ _ _ _ I').
  - apply (inv_count _ _ _ _ _ I').
  - intros Hc' rest'. cbn zeta. unfold buscarPrecoProduto. cbn [alloc fst snd].
    set (h3 := run rest h2) in *.
    rewrite step_read_miss with (c := c) (t := t) (r := 0)
      by (cbn [promises cache]; lookups; first [reflexivity|exact Hc']).
    fold k. destruct (inv_pending _ _ _ _ _ I') as [E2 _].
    rewrite (deduped_join k _ _ (S (S n))) by exact E2. cbn [fst snd].
    set (St2 := fun x => S' x \/ x = nextId h3 \/ x = S (nextId h3)).
    assert (I2 : Inv k (S (S n)) (S (count_key k (http h))) 
                  (set_state (nextId h3) (Adopt (S (nextId h3)))
                     (mkHeap (pendingRequests h3)
                        (<[S (nextId h3) := Adopt (S (S n))]>
                           (<[nextId h3 := PEntry c t 0]> (promises h3)))
                        (S (S (nextId h3))) (cache h3) (http h3))) St2).
    { destruct I' as [I1 I2 I3 I4 I5].
      constructor; subst St2; cbn [set_state pendingRequests promises nextId http].
      - intros p [Hp'|[->| ->]]; [specialize (I1 p Hp')|..]; lia.
      - intros p [Hp'|[->| ->]].
        + destruct (I2 p Hp') as [q [Hq E]]. exists q. split; [left; exact Hq|].
          specialize (I1 p Hp'). lookups. exact E.
        + exists (S (nextId h3)). split; [right; right; reflexivity|]. left. lookups. reflexivity.
        + exists (S (S n)). split; [left; apply I3|]. left. lookups. reflexivity.
      - split; [apply I3|left; apply I3].
      - intros p s E. destruct (decide (p = nextId h3 \/ p = S (nextId h3))) as [Hin|Hout];
          [left; right; exact Hin|].
        rewrite !lookup_insert_ne in E by lia. destruct (I4 p s E) as [H|H]; [left; left|right]; exact H.
      - exact I5. }
    destruct (inv_run _ _ _ rest' _ _ I2) as [S3 [HS3 I3]].
    eapply inv_not_settled; [exact I3|apply HS3; unfold St2; right; left; reflexivity].
Qed.

Lemma preco_retry_never_settles_witness :
  pendingRequests empty_heap !! precoRequestKey "123" 0 = None /\
  cache empty_heap !! precoCacheKey "123" 0 = None /\
  key_free (precoRequestKey "123" 0) empty_heap = true /\
  p_retries (HttpError 503 EmptyString "Service Unavailable") 0 = true /\
  settled (run [] (run [ReadCache 0; ResumePreco 1 (PrecoErr (HttpError 503 EmptyString "Service Unavailable"));
                        WakePreco 1; ReadCache 4]
                     (buscarPrecoProduto "123" 0 0 empty_heap).2))
          (buscarPrecoProduto "123" 0 0 empty_heap).1 = false.
Proof.
  split; [reflexivity|]. split; [reflexivity|]. split; [reflexivity|]. split; [reflexivity|].
  exact (proj1 (preco_retry_never_settles empty_heap "123" 0
                  (HttpError 503 EmptyString "Service Unavailable") [] eq_refl eq_refl eq_refl eq_refl)).
Defined.

(** A cached price is returned by [buscarPrecoProduto] without a request
    and without touching [pendingRequests]. *)
Theorem preco_cache_hit (h : Heap) (c : string) (t : Z) (r : nat) (v : Z) :
  cache h !! precoCacheKey c t = Some v ->
  let b := buscarPrecoProduto c t r h in
  let h' := step (ReadCache b.1) b.2 in
  promises h' !! b.1 = Some (Fulfilled (VNum v)) /\ http h' = http h /\
  pendingRequests h' = pendingRequests h.
Proof.
  intros Hc. cbn zeta. unfold buscarPrecoProduto. cbn [alloc fst snd].
  cbn [step promises cache]. lookups. rewrite Hc. heap_simpl. lookups.
  split; [reflexivity|split; reflexivity].
Qed.

Lemma preco_cache_hit_witness :
  cache (set_cache {[precoCacheKey "123" 0 := 42%Z]} empty_heap) !! precoCacheKey "123" 0 = Some 42%Z /\
  http (step (ReadCache 0) (buscarPrecoProduto "123" 0 0 (set_cache {[precoCacheKey "123" 0 := 42%Z]} empty_heap)).2) = [].
Proof.
  split; [reflexivity|].
  exact (proj1 (proj2 (preco_cache_hit (set_cache {[precoCacheKey "123" 0 := 42%Z]} empty_heap)
                         "123" 0 0 42 eq_refl))).
Defined.

(** [buscarPrecoProduto] never rejects: an attempt that fails without a
    retry resolves to the price 0, and that 0 is not written to the
    cache. *)
Theorem preco_failure_gives_zero (h : Heap) (p : nat) (c : string) (t : Z) (r : nat) (e : Outcome) :
  promises h !! p = Some (PBody c t r) ->
  p_retries e r = false ->
  let h' := step (ResumePreco p (PrecoErr e)) h in
  promises h' !! p = Some (Fulfilled (VNum 0)) /\ cache h' = cache h.
Proof.
  intros E Hr. cbn zeta. cbn [step]. rewrite E, Hr. heap_simpl. lookups.
  split; [reflexivity|]. destruct e; reflexivity.
Qed.

Definition preco_body_heap : Heap :=
  set_state 0 (PBody "123" 0 1) empty_heap.

Lemma preco_failure_gives_zero_witness :
  promises preco_body_heap !! 0 = Some (PBody "123" 0 1) /\
  p_retries (HttpError 401 EmptyString "Unauthorized") 1 = false /\
  promises (step (ResumePreco 0 (PrecoErr (HttpError 401 EmptyString "Unauthorized"))) preco_body_heap) !! 0
    = Some (Fulfilled (VNum 0)).
Proof.
  split; [reflexivity|]. split; [reflexivity|].
  exact (proj1 (preco_failure_gives_zero preco_body_heap 0 "123" 0 1
                  (HttpError 401 EmptyString "Unauthorized") eq_refl eq_refl)).
Defined.

End LocalRequestFacts.


(* ===================================================================== *)
(** ** Partner filters: [consultarParceiros] (src/lib/sankhya-api.ts) and
       the partner list route                                             *)
(* ===================================================================== *)

Module Parceiros.
Import ProdutosService.
Local Open Scope Z_scope.

(** Truthiness of a JavaScript number that may be [undefined] or [null]
    ([0] is falsy). *)
Definition truthy_num (v : option Z) : bool :=
  match v with Some n => negb (n =? 0) | None => false end.

(** [codVendedoresEquipe.join(',')] *)
Definition join_nums (l : list Z) : string := String.concat "," (map pretty l).

(** The [filters] array that [consultarParceiros] builds. *)
Definition filters (searchName searchCode : string) (codVendedor : option Z)
    (codVendedoresEquipe : option (list Z)) : list string :=
  ["CLIENTE = 'S'"%string] ++
  (if negb (String.eqb (trim searchCode) EmptyString)
   then [("CODPARC = " ++ trim searchCode)%string] else []) ++
  (if negb (String.eqb (trim searchName) EmptyString)
   then [("NOMEPARC LIKE '%" ++ toUpperCase (trim searchName) ++ "%'")%string] else []) ++
  (match codVendedoresEquipe with
   | Some ((_ :: _) as l) => [("CODVEND IN (" ++ join_nums l ++ ")")%string; "CODVEND IS NOT NULL"%string]
   | _ =>
       if truthy_num codVendedor
       then match codVendedor with
            | Some v => [("CODVEND = " ++ pretty v)%string; "CODVEND IS NOT NULL"%string]
            | None => []
            end
       else []
   end).

(** [filters.join(' AND ')] *)
Definition criteriaExpression (searchName searchCode : string) (codVendedor : option Z)
    (codVendedoresEquipe : option (list Z)) : string :=
  String.concat " AND " (filters searchName searchCode codVendedor codVendedoresEquipe).

(** The [user] cookie of the partner list route
    (src/app/api/sankhya/produtos/search/route.ts): absent, not valid JSON,
    or a user with its [role] and [userCodVend] (the [parseInt] of
    [user.codVendedor] when that is truthy). *)
Inductive Cookie :=
| NoCookie
| BadCookie
| UserCookie (role : string) (userCodVend : option Z).

(** The answer of [fetch(.../api/vendedores?tipo=vendedores&codGerente=...)]:
    an ok response with the [CODVEND] of the team, a non-ok response, or a
    thrown error. *)
Inductive TeamLookup :=
| TeamOk (vendedores : list Z)
| TeamNotOk (status : Z)
| TeamThrows.

(** The [codVendedor] and [codVendedoresEquipe] the route passes to
    [consultarParceiros]. *)
Definition route_params (c : Cookie) (lookup : TeamLookup) : option Z * option (list Z) :=
  match c with
  | UserCookie role userCodVend =>
      let codVendedor :=
        if String.eqb role "Vendedor" && truthy_num userCodVend then userCodVend else None in
      let codVendedoresEquipe :=
        if String.eqb role "Gerente" && truthy_num userCodVend
        then Some (match lookup with
                   | TeamOk ((_ :: _) as l) => l
                   | TeamOk [] => []
                   | TeamNotOk _ => []
                   | TeamThrows => []
                   end)
        else None in
      (codVendedor, codVendedoresEquipe)
  | _ => (None, None)
  end.

(** The criteria of the partner list route. *)
Definition route_criteria (searchName searchCode : string) (c : Cookie) (lookup : TeamLookup) : string :=
  let '(cv, eq) := route_params c lookup in criteriaExpression searchName searchCode cv eq.

End Parceiros.

Module ParceirosFacts.
Import Parceiros.
Local Open Scope Z_scope.

Lemma prefix_app (s t : string) : String.prefix s (s ++ t) = true.
Proof.
  induction s as [|a s IH]; [destruct t; reflexivity|].
  simpl. destruct (Ascii.ascii_dec a a); [exact IH|contradiction].
Qed.

(** Whatever the search terms, seller or team, the criteria of
    [consultarParceiros] start with [CLIENTE = 'S']: only clients are ever
    listed. *)
Theorem parceiros_only_clients (searchName searchCode : string) (codVendedor : option Z)
    (codVendedoresEquipe : option (list Z)) :
  String.prefix "CLIENTE = 'S'" (criteriaExpression searchName searchCode codVendedor codVendedoresEquipe)
  = true.
Proof.
  unfold criteriaExpression, filters. cbn [app].
  destruct (_ ++ _ ++ _) as [|f fs]; [reflexivity|].
  cbn [String.concat]. apply prefix_app.
Qed.

(** A non-empty team takes precedence: the seller code passed along is
    then ignored. *)
Theorem parceiros_team_overrides_seller (searchName searchCode : string) (v v' : option Z)
    (x : Z) (l : list Z) :
  criteriaExpression searchName searchCode v (Some (x :: l))
  = criteriaExpression searchName searchCode v' (Some (x :: l)).
Proof. reflexivity. Qed.

(** A manager whose team lookup returns no seller, a non-ok response or an
    error gets [codVendedoresEquipe = []], which [consultarParceiros] treats
    as no team at all: the criteria are those of a request without any
    user, so every client is listed. *)
Theorem gerente_failed_lookup_lists_all (searchName searchCode : string) (cv : Z) (lookup : TeamLookup) :
  cv <> 0 ->
  match lookup with TeamOk (_ :: _) => False | _ => True end ->
  route_criteria searchName searchCode (UserCookie "Gerente" (Some cv)) lookup
  = route_criteria searchName searchCode NoCookie lookup.
Proof.
  intros Hcv Hl. unfold route_criteria, route_params.
  assert (Ht : truthy_num (Some cv) = true) by (cbn; rewrite (proj2 (Z.eqb_neq cv 0) Hcv); reflexivity).
  rewrite Ht. cbn [String.eqb andb].
  assert (E : match lookup with
              | TeamOk ((_ :: _) as l) => l | TeamOk [] => [] | TeamNotOk _ => [] | TeamThrows => []
              end = []) by (destruct lookup as [[|]| |]; tauto).
  rewrite E. reflexivity.
Qed.

Lemma gerente_failed_lookup_lists_all_witness :
  (7 <> 0) /\ True /\
  route_criteria "ana" EmptyString (UserCookie "Gerente" (Some 7)) (TeamNotOk 500)
  = "CLIENTE = 'S' AND NOMEPARC LIKE '%ANA%'"%string.
Proof.
  split; [lia|]. split; [exact Logic.I|].
  rewrite (gerente_failed_lookup_lists_all "ana" EmptyString 7 (TeamNotOk 500) ltac:(lia) Logic.I).
  vm_compute. reflexivity.
Defined.

Lemma sapp_assoc (a b c : string) : ((a ++ b) ++ c)%string = (a ++ (b ++ c))%string.
Proof.
  induction a as [|x a IH]; [reflexivity|].
  change (String x ((a ++ b) ++ c) = String x (a ++ (b ++ c)))%string. rewrite IH. reflexivity.
Qed.

Lemma concat_cons2 (sep y z : string) (l : list string) :
  String.concat sep (y :: z :: l) = (y ++ sep ++ String.concat sep (z :: l))%string.
Proof. reflexivity. Qed.

Lemma concat_snoc (sep : string) (l : list string) (x : string) :
  l <> [] -> String.concat sep (l ++ [x]) = (String.concat sep l ++ sep ++ x)%string.
Proof.
  induction l as [|y l IH]; intros Hl; [contradiction|].
  destruct l as [|z l]; [reflexivity|].
  pose proof (IH ltac:(discriminate)) as IH'. cbn [app] in IH' |- *.
  rewrite !concat_cons2, IH', !sapp_assoc. reflexivity.
Qed.

(** A seller (role [Vendedor] with a non-zero code) only sees the clients
    whose preferred seller is that code: the criteria end with
    [CODVEND = code AND CODVEND IS NOT NULL], whatever the team lookup. *)
Theorem vendedor_sees_own_clients (searchName searchCode : string) (cv : Z) (lookup : TeamLookup) :
  cv <> 0 ->
  exists pre,
    route_criteria searchName searchCode (UserCookie "Vendedor" (Some cv)) lookup
    = (pre ++ " AND CODVEND = " ++ pretty cv ++ " AND CODVEND IS NOT NULL")%string.
Proof.
  intros Hcv. unfold route_criteria, route_params.
  assert (Ht : truthy_num (Some cv) = true) by (cbn; rewrite (proj2 (Z.eqb_neq cv 0) Hcv); reflexivity).
  rewrite Ht. cbn [String.eqb andb Ascii.eqb Bool.eqb].
  unfold criteriaExpression, filters. rewrite Ht.
  match goal with
  | |- context [String.concat _ (?h ++ ?A ++ ?B ++ [?c1; ?c2])] =>
      exists (String.concat " AND " (h ++ A ++ B));
      replace (h ++ A ++ B ++ [c1; c2]) with (((h ++ A ++ B) ++ [c1]) ++ [c2])
        by (rewrite <- !app_assoc; reflexivity)
  end.
  rewrite !concat_snoc by (try (apply app_cons_not_nil); discriminate).
  rewrite !sapp_assoc. reflexivity.
Qed.

Lemma vendedor_sees_own_clients_witness :
  (12 <> 0) /\
  route_criteria EmptyString EmptyString (UserCookie "Vendedor" (Some 12)) TeamThrows
  = "CLIENTE = 'S' AND CODVEND = 12 AND CODVEND IS NOT NULL"%string /\
  exists pre,
    route_criteria EmptyString EmptyString (UserCookie "Vendedor" (Some 12)) TeamThrows
    = (pre ++ " AND CODVEND = " ++ pretty 12 ++ " AND CODVEND IS NOT NULL")%string.
Proof.
  split; [lia|]. split; [vm_compute; reflexivity|].
  exact (vendedor_sees_own_clients EmptyString EmptyString 12 TeamThrows ltac:(lia)).
Defined.

End ParceirosFacts.

(* ===================================================================== *)
(** ** Date formatting: [formatarDataSankhya] of
       src/app/api/sankhya/tipos-negociacao/route.ts *)
(* ===================================================================== *)

Module DataSankhya.
Local Open Scope string_scope.

(** [s.includes(' ')] *)
Fixpoint has_space (s : string) : bool :=
  match s with
  | EmptyString => false
  | String c r => Ascii.eqb c " "%char || has_space r
  end.

(** [s.split(sep)] for a one-character separator: the pieces between the
    occurrences of [sep], at least one. *)
Fixpoint js_split (sep : Ascii.ascii) (s : string) : list string :=
  match s with
  | EmptyString => [EmptyString]
  | String c r =>
      let parts := js_split sep r in
      if Ascii.eqb c sep then EmptyString :: parts
      else match parts with
           | p :: ps => String c p :: ps
           | [] => [String c EmptyString]
           end
  end.

(** [\d] of a JavaScript regular expression without the [u] flag. *)
Definition is_digit (c : Ascii.ascii) : bool :=
  Nat.leb 48 (Ascii.nat_of_ascii c) && Nat.leb (Ascii.nat_of_ascii c) 57.

(** [/^\d{4}-\d{2}-\d{2}$/] *)
Definition matches_iso (s : string) : bool :=
  match s with
  | String y1 (String y2 (String y3 (String y4 (String h1
      (String m1 (String m2 (String h2 (String d1 (String d2 EmptyString))))))))) =>
      is_digit y1 && is_digit y2 && is_digit y3 && is_digit y4 &&
      Ascii.eqb h1 "-"%char && is_digit m1 && is_digit m2 &&
      Ascii.eqb h2 "-"%char && is_digit d1 && is_digit d2
  | _ => false
  end.

(** [/^\d{2}\/\d{2}\/\d{4}$/] *)
Definition matches_dmy (s : string) : bool :=
  match s with
  | String d1 (String d2 (String b1 (String m1 (String m2 (String b2
      (String y1 (String y2 (String y3 (String y4 EmptyString))))))))) =>
      is_digit d1 && is_digit d2 && Ascii.eqb b1 "/"%char &&
      is_digit m1 && is_digit m2 && Ascii.eqb b2 "/"%char &&
      is_digit y1 && is_digit y2 && is_digit y3 && is_digit y4
  | _ => false
  end.

(** Array element read: [undefined] out of range, which a template
    literal prints as ["undefined"]. *)
Definition nth_or_undefined (l : list string) (i : nat) : string :=
  default "undefined" (l !! i).

(** [formatarDataSankhya]; [None] is [null] or [undefined]. *)
Definition formatarDataSankhya (data : option string) : string :=
  match data with
  | None | Some EmptyString => EmptyString
  | Some d =>
      let dataLimpa := if has_space d then nth_or_undefined (js_split " "%char d) 0 else d in
      if matches_iso dataLimpa then dataLimpa
      else if matches_dmy dataLimpa then
        let parts := js_split "/"%char dataLimpa in
        let dia := nth_or_undefined parts 0 in
        let mes := nth_or_undefined parts 1 in
        let ano := nth_or_undefined parts 2 in
        ano ++ "-" ++ mes ++ "-" ++ dia
      else dataLimpa
  end.

End DataSankhya.

Module DataSankhyaFacts.
Import DataSankhya.
Local Open Scope string_scope.

Lemma digit_ne (c x : Ascii.ascii) :
  is_digit c = true -> is_digit x = false -> Ascii.eqb c x = false.
Proof.
  intros Hc Hx. destruct (Ascii.eqb_spec c x); [subst; congruence|reflexivity].
Qed.

Ltac digits_ne :=
  repeat match goal with
  | H : is_digit ?c = true |- context [Ascii.eqb ?c ?x] =>
      rewrite (digit_ne c x H) by reflexivity
  end.

Lemma split_head_no_space (s : string) :
  has_space (nth_or_undefined (js_split " "%char s) 0) = false.
Proof.
  unfold nth_or_undefined.
  induction s as [|c r IH]; [reflexivity|].
  cbn [js_split]. destruct (Ascii.eqb c " "%char) eqn:E; [reflexivity|].
  destruct (js_split " "%char r) as [|p ps]; cbn in *; rewrite E; cbn; [reflexivity|exact IH].
Qed.

Lemma matches_dmy_shape (s : string) :
  matches_dmy s = true ->
  exists d1 d2 m1 m2 y1 y2 y3 y4,
    s = String d1 (String d2 (String "/" (String m1 (String m2 (String "/"
          (String y1 (String y2 (String y3 (String y4 EmptyString))))))))) /\
    Forall (fun c => is_digit c = true) [d1; d2; m1; m2; y1; y2; y3; y4].
Proof.
  intros H.
  do 10 (destruct s as [|? s]; [discriminate|]).
  destruct s; [|discriminate].
  cbn in H. repeat rewrite andb_true_iff in H.
  destruct H as [[[[[[[[[H1 H2] H3] H4] H5] H6] H7] H8] H9] H10].
  apply Ascii.eqb_eq in H3, H6. subst.
  do 8 eexists. split; [reflexivity|]. repeat constructor; assumption.
Qed.

Lemma matches_iso_nonempty (s : string) : matches_iso s = true -> s <> EmptyString.
Proof. intros H ->. discriminate. Qed.

Lemma matches_dmy_nonempty (s : string) : matches_dmy s = true -> s <> EmptyString.
Proof. intros H ->. discriminate. Qed.

Lemma formatar_no_space_input (d : string) :
  has_space d = false ->
  formatarDataSankhya (Some d) =
    if matches_iso d then d
    else if matches_dmy d then
      nth_or_undefined (js_split "/"%char d) 2 ++ "-" ++
      nth_or_undefined (js_split "/"%char d) 1 ++ "-" ++
      nth_or_undefined (js_split "/"%char d) 0
    else d.
Proof.
  intros H. destruct d as [|c r]; [reflexivity|].
  unfold formatarDataSankhya. rewrite H. reflexivity.
Qed.

(** The result of the conversion of a [DD/MM/YYYY] date. *)
Lemma formatar_dmy (d1 d2 m1 m2 y1 y2 y3 y4 : Ascii.ascii) :
  Forall (fun c => is_digit c = true) [d1; d2; m1; m2; y1; y2; y3; y4] ->
  formatarDataSankhya (Some (String d1 (String d2 (String "/" (String m1 (String m2
      (String "/" (String y1 (String y2 (String y3 (String y4 EmptyString))))))))))) =
  String y1 (String y2 (String y3 (String y4 (String "-" (String m1 (String m2
      (String "-" (String d1 (String d2 EmptyString))))))))).
Proof.
  intros Hd. repeat (match goal with H : Forall _ (_ :: _) |- _ => inversion_clear H end).
  rewrite formatar_no_space_input.
  2:{ cbn [has_space]. digits_ne. reflexivity. }
  cbn [matches_iso]. digits_ne. rewrite !andb_false_r.
  assert (Hm : matches_dmy (String d1 (String d2 (String "/" (String m1 (String m2
      (String "/" (String y1 (String y2 (String y3 (String y4 EmptyString)))))))))) = true).
  { cbn [matches_dmy]. repeat match goal with H : is_digit _ = true |- _ => rewrite H end. reflexivity. }
  rewrite Hm.
  cbn [js_split]. digits_ne. reflexivity.
Qed.

Lemma formatar_via_limpa (d : string) :
  formatarDataSankhya (Some d) =
  formatarDataSankhya (Some (if has_space d then nth_or_undefined (js_split " "%char d) 0 else d)).
Proof.
  destruct (has_space d) eqn:Hs; [|reflexivity].
  pose proof (split_head_no_space d) as HL.
  set (L := nth_or_undefined (js_split " "%char d) 0) in *.
  rewrite (formatar_no_space_input L HL).
  destruct d as [|c r]; [discriminate|].
  unfold formatarDataSankhya at 1. rewrite Hs. fold L. reflexivity.
Qed.

Lemma iso_no_space (s : string) : matches_iso s = true -> has_space s = false.
Proof.
  intros H.
  do 10 (destruct s as [|? s]; [discriminate|]).
  destruct s; [|discriminate].
  cbn in H. repeat rewrite andb_true_iff in H.
  destruct H as [[[[[[[[[H1 H2] H3] H4] H5] H6] H7] H8] H9] H10].
  apply Ascii.eqb_eq in H5, H8. subst.
  cbn [has_space]. digits_ne. reflexivity.
Qed.

Lemma formatar_iso_fixed (s : string) : matches_iso s = true -> formatarDataSankhya (Some s) = s.
Proof.
  intros H. rewrite formatar_no_space_input by (apply iso_no_space; exact H).
  rewrite H. reflexivity.
Qed.

Lemma dmy_result_iso (d1 d2 m1 m2 y1 y2 y3 y4 : Ascii.ascii) :
  Forall (fun c => is_digit c = true) [d1; d2; m1; m2; y1; y2; y3; y4] ->
  matches_iso (String y1 (String y2 (String y3 (String y4 (String "-" (String m1 (String m2
      (String "-" (String d1 (String d2 EmptyString)))))))))) = true.
Proof.
  intros Hd. repeat (match goal with H : Forall _ (_ :: _) |- _ => inversion_clear H end).
  cbn [matches_iso]. repeat match goal with H : is_digit _ = true |- _ => rewrite H end.
  reflexivity.
Qed.

(** Cases of the result on an input without spaces. *)
Lemma formatar_no_space_cases (L : string) :
  has_space L = false ->
  (matches_iso L = true /\ formatarDataSankhya (Some L) = L) \/
  (matches_iso L = false /\ matches_dmy L = false /\ formatarDataSankhya (Some L) = L) \/
  (matches_iso (formatarDataSankhya (Some L)) = true).
Proof.
  intros HL. destruct (matches_iso L) eqn:Hi.
  - left. split; [reflexivity|]. apply formatar_iso_fixed, Hi.
  - destruct (matches_dmy L) eqn:Hd.
    + right; right.
      destruct (matches_dmy_shape L Hd) as (d1 & d2 & m1 & m2 & y1 & y2 & y3 & y4 & -> & Hdig).
      rewrite formatar_dmy by exact Hdig. apply dmy_result_iso, Hdig.
    + right; left. split; [reflexivity|]. split; [reflexivity|].
      rewrite formatar_no_space_input by exact HL. rewrite Hi, Hd. reflexivity.
Qed.

(** ** Date formatting is idempotent
    Formatting an already formatted date changes nothing. *)
Theorem formatar_idempotent (d : option string) :
  formatarDataSankhya (Some (formatarDataSankhya d)) = formatarDataSankhya d.
Proof.
  destruct d as [d|]; [|reflexivity].
  rewrite (formatar_via_limpa d).
  set (L := if has_space d then nth_or_undefined (js_split " "%char d) 0 else d).
  assert (HL : has_space L = false).
  { unfold L. destruct (has_space d) eqn:E; [apply split_head_no_space|exact E]. }
  destruct (formatar_no_space_cases L HL) as [[_ H]|[[_ [_ H]]|Hiso]].
  - rewrite H. exact H.
  - rewrite H. exact H.
  - apply formatar_iso_fixed, Hiso.
Qed.

(** ** Formatted dates hold no space
    Whatever the input, the formatted date contains no space: a time part
    after the first space is always cut off. *)
Theorem formatar_no_space (d : option string) :
  has_space (formatarDataSankhya d) = false.
Proof.
  destruct d as [d|]; [|reflexivity].
  rewrite (formatar_via_limpa d).
  set (L := if has_space d then nth_or_undefined (js_split " "%char d) 0 else d).
  assert (HL : has_space L = false).
  { unfold L. destruct (has_space d) eqn:E; [apply split_head_no_space|exact E]. }
  destruct (formatar_no_space_cases L HL) as [[_ H]|[[_ [_ H]]|Hiso]].
  - rewrite H. exact HL.
  - rewrite H. exact HL.
  - apply iso_no_space, Hiso.
Qed.

(** ** Day-first dates become ISO dates
    A [DD/MM/YYYY] date, alone or followed by a space and a time, is
    formatted as [YYYY-MM-DD]. *)
Theorem formatar_dmy_to_iso (d1 d2 m1 m2 y1 y2 y3 y4 : Ascii.ascii) (hora : string) :
  Forall (fun c => is_digit c = true) [d1; d2; m1; m2; y1; y2; y3; y4] ->
  let dmy := String d1 (String d2 (String "/" (String m1 (String m2
      (String "/" (String y1 (String y2 (String y3 (String y4 EmptyString))))))))) in
  let iso := String y1 (String y2 (String y3 (String y4 (String "-" (String m1 (String m2
      (String "-" (String d1 (String d2 EmptyString))))))))) in
  formatarDataSankhya (Some dmy) = iso /\
  formatarDataSankhya (Some (dmy ++ String " " hora)) = iso.
Proof.
  intros Hd dmy iso. split; [apply formatar_dmy, Hd|].
  rewrite formatar_via_limpa.
  repeat (match goal with H : Forall _ (_ :: _) |- _ => inversion_clear H end).
  assert (E : (dmy ++ String " " hora)%string =
    String d1 (String d2 (String "/" (String m1 (String m2 (String "/"
      (String y1 (String y2 (String y3 (String y4 (String " " hora)))))))))))
    by reflexivity.
  rewrite E. cbn [has_space js_split]. digits_ne. cbn [orb].
  change (Ascii.eqb " " " ") with true. cbn iota.
  destruct (js_split " "%char hora); unfold nth_or_undefined; cbn [lookup list_lookup default];
  fold dmy; apply formatar_dmy; repeat constructor; assumption.
Qed.

Lemma formatar_dmy_to_iso_witness :
  Forall (fun c => is_digit c = true) ["2"; "5"; "1"; "2"; "2"; "0"; "2"; "4"]%char /\
  formatarDataSankhya (Some "25/12/2024 10:30:00") = "2024-12-25".
Proof.
  split; [repeat constructor|].
  exact (proj2 (formatar_dmy_to_iso "2" "5" "1" "2" "2" "0" "2" "4" "10:30:00"
                  ltac:(repeat constructor))).
Defined.

End DataSankhyaFacts.

(* ===================================================================== *)
(** ** Order list route: [GET] of src/app/api/sankhya/pedidos/listar/route.ts *)
(* ===================================================================== *)

Module PedidosLista.
Import Parceiros.
Local Open Scope string_scope.

(** [String.prototype.toLowerCase] on ASCII characters. *)
Definition lower_char (c : ascii) : ascii :=
  let n := nat_of_ascii c in
  if Nat.leb 65 n && Nat.leb n 90 then ascii_of_nat (n + 32) else c.

Fixpoint toLowerCase (s : string) : string :=
  match s with
  | EmptyString => EmptyString
  | String c r => String (lower_char c) (toLowerCase r)
  end.

(** The user record the route reads (from [usersService.getById] or the
    [user] cookie); an absent field is [None]. *)
Record Usuario := mkUsuario {
  tipo : option string;
  role : option string;
  codVendedor : option Z
}.

(** The listing the route asks for. *)
Inductive Chamada :=
| ListarPedidos (codVendedor : option string)   (* [listarPedidos] *)
| ListarPedidosPorGerente (codGerente : string) (* [listarPedidosPorGerente] *)
| Nenhuma.                                      (* [pedidos = []] *)

Inductive Resposta :=
| NaoAutenticado     (* status 401 *)
| Listagem (c : Chamada).

(** [usuario.tipo || usuario.role?.toLowerCase()] *)
Definition tipoUsuario (u : Usuario) : option string :=
  match tipo u with
  | Some t => if String.eqb t EmptyString then option_map toLowerCase (role u) else Some t
  | None => option_map toLowerCase (role u)
  end.

Definition is_tipo (u : Usuario) (t : string) : bool :=
  match tipoUsuario u with Some x => String.eqb x t | None => false end.

(** The dispatch of [GET] in src/app/api/sankhya/pedidos/listar/route.ts,
    after the user lookup; [None] is a missing or unparsable user. *)
Definition listar (usuario : option Usuario) : Resposta :=
  match usuario with
  | None => NaoAutenticado
  | Some u =>
      if is_tipo u "administrador" then Listagem (ListarPedidos None)
      else if is_tipo u "gerente" && truthy_num (codVendedor u) then
        Listagem (ListarPedidosPorGerente (pretty (default 0%Z (codVendedor u))))
      else if is_tipo u "vendedor" && truthy_num (codVendedor u) then
        Listagem (ListarPedidos (Some (pretty (default 0%Z (codVendedor u)))))
      else Listagem Nenhuma
  end.

End PedidosLista.

Module PedidosListaFacts.
Import Parceiros PedidosLista.
Local Open Scope string_scope.

(** ** Only administrators list every order
    The route asks for the unfiltered order list exactly when the user's
    type is ["administrador"]; every other user gets a listing filtered by
    a seller or manager code, or nothing. *)
Theorem listar_unfiltered_only_admin (usuario : option Usuario) :
  listar usuario = Listagem (ListarPedidos None) <->
  exists u, usuario = Some u /\ tipoUsuario u = Some "administrador".
Proof.
  split.
  - destruct usuario as [u|]; [|discriminate]. cbn.
    destruct (is_tipo u "administrador") eqn:Ha.
    + intros _. exists u. split; [reflexivity|].
      unfold is_tipo in Ha. destruct (tipoUsuario u); [|discriminate].
      apply String.eqb_eq in Ha. subst. reflexivity.
    + destruct (is_tipo u "gerente" && truthy_num (codVendedor u)); [discriminate|].
      destruct (is_tipo u "vendedor" && truthy_num (codVendedor u)); discriminate.
  - intros (u & -> & Ht). cbn. unfold is_tipo. rewrite Ht. reflexivity.
Qed.

(** ** Without a seller code nothing is listed, except for administrators
    A user whose seller code is missing or zero gets the full list when an
    administrator and an empty list otherwise, whatever the type. *)
Theorem listar_without_code (u : Usuario) :
  truthy_num (codVendedor u) = false ->
  listar (Some u) =
    if is_tipo u "administrador" then Listagem (ListarPedidos None) else Listagem Nenhuma.
Proof.
  intros H. cbn. rewrite H, !andb_false_r. reflexivity.
Qed.

Lemma listar_without_code_witness :
  truthy_num (codVendedor (mkUsuario (Some "gerente") None (Some 0%Z))) = false /\
  listar (Some (mkUsuario (Some "gerente") None (Some 0%Z))) = Listagem Nenhuma.
Proof.
  split; [reflexivity|].
  rewrite (listar_without_code (mkUsuario (Some "gerente") None (Some 0%Z)) eq_refl).
  reflexivity.
Defined.

Lemma lower_char_idem (c : ascii) : lower_char (lower_char c) = lower_char c.
Proof. destruct c as [[] [] [] [] [] [] [] []]; reflexivity. Qed.

Lemma toLowerCase_idem (s : string) : toLowerCase (toLowerCase s) = toLowerCase s.
Proof. induction s as [|c r IH]; [reflexivity|]. cbn. rewrite lower_char_idem, IH. reflexivity. Qed.

(** ** A non-empty [tipo] decides, and [role] is read case-insensitively
    When the user has a non-empty [tipo], the [role] field plays no part in
    the dispatch; without one, the [role] is compared after lowering its
    ASCII letters, so its case plays no part. *)
Theorem listar_tipo_then_role (t : string) (r r' : option string) (cv : option Z) :
  t <> EmptyString ->
  listar (Some (mkUsuario (Some t) r cv)) = listar (Some (mkUsuario (Some t) r' cv)) /\
  listar (Some (mkUsuario None r cv)) =
    listar (Some (mkUsuario None (option_map toLowerCase r) cv)).
Proof.
  intros Ht. split.
  - unfold listar, is_tipo, tipoUsuario. cbn [tipo role codVendedor].
    destruct (String.eqb_spec t EmptyString); [contradiction|]. reflexivity.
  - unfold listar, is_tipo, tipoUsuario. cbn [tipo role codVendedor].
    destruct r as [r|]; [|reflexivity]. cbn [option_map]. rewrite toLowerCase_idem. reflexivity.
Qed.

Lemma listar_tipo_then_role_witness :
  ("vendedor" <> EmptyString) /\
  listar (Some (mkUsuario None (Some "Administrador") (Some 5%Z))) = Listagem (ListarPedidos None) /\
  listar (Some (mkUsuario (Some "vendedor") (Some "administrador") (Some 5%Z))) =
    listar (Some (mkUsuario (Some "vendedor") None (Some 5%Z))).
Proof.
  split; [discriminate|]. split; [vm_compute; reflexivity|].
  exact (proj1 (listar_tipo_then_role "vendedor" (Some "administrador") None (Some 5%Z)
                  ltac:(discriminate))).
Defined.

End PedidosListaFacts.

(* ===================================================================== *)
(** ** Receivables route: criteria and token handling of
       src/app/api/sankhya/tipos-negociacao/route.ts *)
(* ===================================================================== *)

Module Titulos.
Local Open Scope string_scope.

(** [searchParams.get(name) || padrao]: [None] is a missing parameter. *)
Definition param_or (p : option string) (padrao : string) : string :=
  match p with
  | Some s => if String.eqb s EmptyString then padrao else s
  | None => padrao
  end.

Record Params := mkParams {
  codigoEmpresaP : option string;
  codigoParceiroP : option string;
  statusFinanceiroP : option string;
  dataNegociacaoInicioP : option string;
  dataNegociacaoFinalP : option string
}.

Definition nonempty (s : string) : bool := negb (String.eqb s EmptyString).

(** The [criterios] array built by [GET] (receivables of TGFFIN). *)
Definition criterios (p : Params) : list string :=
  let codigoEmpresa := param_or (codigoEmpresaP p) "1" in
  let codigoParceiro := param_or (codigoParceiroP p) EmptyString in
  let statusFinanceiro := param_or (statusFinanceiroP p) "3" in
  let dataNegociacaoInicio := param_or (dataNegociacaoInicioP p) EmptyString in
  let dataNegociacaoFinal := param_or (dataNegociacaoFinalP p) EmptyString in
  ["RECDESP = 1"; "CODEMP = " ++ codigoEmpresa] ++
  (if nonempty codigoParceiro then ["CODPARC = " ++ codigoParceiro] else []) ++
  (if String.eqb statusFinanceiro "1" then ["PROVISAO = 'N'"]
   else if String.eqb statusFinanceiro "2" then ["PROVISAO = 'S'"] else []) ++
  ["DHBAIXA IS NULL"] ++
  (if nonempty dataNegociacaoInicio
   then ["DTNEG >= TO_DATE('" ++ dataNegociacaoInicio ++ "', 'YYYY-MM-DD')"] else []) ++
  (if nonempty dataNegociacaoFinal
   then ["DTNEG <= TO_DATE('" ++ dataNegociacaoFinal ++ "', 'YYYY-MM-DD')"] else []).

(** [criterios.join(' AND ')] *)
Definition criterioExpression (p : Params) : string :=
  String.concat " AND " (criterios p).

(** The module variable [cachedToken] of the route, and the outcome of the
    login [fetch]: a response ([ok], [data.bearerToken], [data.token]) or
    a thrown error. *)
Inductive Login :=
| LoginResp (ok : bool) (bearerToken token : option string)
| LoginThrows (erro : string).

Inductive Result (A : Type) := Ok (a : A) | Err (erro : string).
Arguments Ok {A} a.
Arguments Err {A} erro.

Definition truthy_str (s : option string) : option string :=
  match s with Some t => if String.eqb t EmptyString then None else Some t | None => None end.

(** [obterToken] of the route: returns the new [cachedToken] and the
    result. *)
Definition obterToken (cachedToken : option string) (login : Login)
    : option string * Result string :=
  match truthy_str cachedToken with
  | Some t => (cachedToken, Ok t)
  | None =>
      match login with
      | LoginThrows e => (None, Err e)
      | LoginResp ok bt tk =>
          if negb ok then (None, Err "Erro ao autenticar no Sankhya")
          else match truthy_str bt, truthy_str tk with
               | Some t, _ | None, Some t => (Some t, Ok t)
               | None, None => (None, Err "Token não encontrado na resposta")
               end
      end
  end.

(** What the downstream answers to a request carrying a given bearer
    token: a body, an HTTP error status, or a thrown network error. *)
Inductive Resp := RespOk (body : string) | RespStatus (status : Z) | RespThrows (erro : string).

(** [fazerRequisicaoAutenticada] of the route. *)
Definition fazerRequisicaoAutenticada (cachedToken : option string) (login : Login)
    (downstream : string -> Resp) : option string * Result string :=
  match obterToken cachedToken login with
  | (c, Err e) => (c, Err e)
  | (c, Ok token) =>
      match downstream token with
      | RespOk body => (c, Ok body)
      | RespStatus n =>
          if (n =? 401)%Z || (n =? 403)%Z then (None, Err "Sessão expirada. Tente novamente.")
          else (c, Err ("Erro HTTP " ++ pretty n))
      | RespThrows e => (c, Err e)
      end
  end.

End Titulos.

Module TitulosFacts.
Import Titulos.
Local Open Scope string_scope.

Definition is_provisao (s : string) : bool := String.prefix "PROVISAO" s.

(** ** Receivables queries only ask for open receivables
    The criteria always start with [RECDESP = 1] followed by the company
    filter (company [1] when the parameter is missing or empty), and always
    contain [DHBAIXA IS NULL]. *)
Theorem titulos_open_receivables (p : Params) :
  criterios p !! 0%nat = Some "RECDESP = 1" /\
  criterios p !! 1%nat = Some ("CODEMP = " ++ param_or (codigoEmpresaP p) "1") /\
  In "DHBAIXA IS NULL" (criterios p).
Proof.
  unfold criterios. split; [reflexivity|]. split; [reflexivity|].
  apply in_or_app; right. apply in_or_app; right. apply in_or_app; right.
  apply in_or_app; left. left. reflexivity.
Qed.

(** ** The provision filter
    The criteria hold one provision filter, [PROVISAO = 'N'] for status
    ["1"] and [PROVISAO = 'S'] for status ["2"], and none for any other
    status, including the default ["3"]. *)
Theorem titulos_provisao_filter (p : Params) :
  filter (fun s => is_provisao s = true) (criterios p) =
    let st := param_or (statusFinanceiroP p) "3" in
    if String.eqb st "1" then ["PROVISAO = 'N'"]
    else if String.eqb st "2" then ["PROVISAO = 'S'"] else [].
Proof.
  unfold criterios. cbv zeta.
  repeat rewrite filter_app.
  set (e := param_or (codigoEmpresaP p) "1").
  set (c := param_or (codigoParceiroP p) EmptyString).
  set (di := param_or (dataNegociacaoInicioP p) EmptyString).
  set (df := param_or (dataNegociacaoFinalP p) EmptyString).
  assert (H1 : filter (fun s => is_provisao s = true) ["RECDESP = 1"; "CODEMP = " ++ e] = []).
  { reflexivity. }
  rewrite H1.
  assert (H2 : filter (fun s => is_provisao s = true) (if nonempty c then ["CODPARC = " ++ c] else []) = []).
  { destruct (nonempty c); reflexivity. }
  rewrite H2.
  assert (H3 : filter (fun s => is_provisao s = true) (if nonempty di then
      ["DTNEG >= TO_DATE('" ++ di ++ "', 'YYYY-MM-DD')"] else []) = []).
  { destruct (nonempty di); reflexivity. }
  rewrite H3.
  assert (H4 : filter (fun s => is_provisao s = true) (if nonempty df then
      ["DTNEG <= TO_DATE('" ++ df ++ "', 'YYYY-MM-DD')"] else []) = []).
  { destruct (nonempty df); reflexivity. }
  rewrite H4.
  destruct (String.eqb _ "1"); [reflexivity|].
  destruct (String.eqb _ "2"); reflexivity.
Qed.

(** ** The route reuses its token and never retries
    With a token cached, the login is never consulted and the cached token
    is sent. A 401 or 403 answer clears the cached token and fails with
    the session-expired error without retrying; the next call then logs in
    again and sends the new token. *)
Theorem titulos_token_reuse_and_expiry (t t' : string) (login login' : Login)
    (downstream : string -> Resp) (n : Z) :
  t <> EmptyString -> t' <> EmptyString ->
  fazerRequisicaoAutenticada (Some t) login downstream =
    fazerRequisicaoAutenticada (Some t) login' downstream /\
  (downstream t = RespStatus n -> (n = 401 \/ n = 403)%Z ->
   fazerRequisicaoAutenticada (Some t) login downstream =
     (None, Err "Sessão expirada. Tente novamente.") /\
   forall tk,
   fazerRequisicaoAutenticada None (LoginResp true (Some t') tk) downstream =
     (match downstream t' with
      | RespOk body => (Some t', Ok body)
      | RespStatus m =>
          if (m =? 401)%Z || (m =? 403)%Z then (None, Err "Sessão expirada. Tente novamente.")
          else (Some t', Err ("Erro HTTP " ++ pretty m))
      | RespThrows e => (Some t', Err e)
      end)).
Proof.
  intros Ht Ht'.
  assert (Et : truthy_str (Some t) = Some t).
  { cbn. destruct (String.eqb_spec t EmptyString); [contradiction|reflexivity]. }
  split.
  - unfold fazerRequisicaoAutenticada, obterToken. rewrite Et. reflexivity.
  - intros Hd Hn. split.
    + unfold fazerRequisicaoAutenticada, obterToken. rewrite Et, Hd.
      destruct Hn as [-> | ->]; reflexivity.
    + intros tk. unfold fazerRequisicaoAutenticada, obterToken. cbn [truthy_str negb].
      destruct (String.eqb_spec t' EmptyString); [contradiction|reflexivity].
Qed.

Lemma titulos_token_reuse_and_expiry_witness :
  fazerRequisicaoAutenticada (Some "abc") (LoginThrows "x")
    (fun tok => if String.eqb tok "abc" then RespStatus 401 else RespOk "[]") =
    (None, Err "Sessão expirada. Tente novamente.").
Proof.
  refine (proj1 (proj2 (titulos_token_reuse_and_expiry "abc" "novo" (LoginThrows "x")
            (LoginThrows "y") (fun tok => if String.eqb tok "abc" then RespStatus 401 else RespOk "[]")
            401 ltac:(discriminate) ltac:(discriminate)) eq_refl (or_introl eq_refl))).
Defined.

End TitulosFacts.

(* ===================================================================== *)
(** ** Partner save: [salvarParceiro] (src/lib/sankhya-api.ts)           *)
(* ===================================================================== *)

Module SalvarParceiro.
Local Open Scope string_scope.

(** The [parceiro] argument; optional fields are [None] when absent. *)
Record Parceiro := mkParceiro {
  CODPARC : option string;
  NOMEPARC : string;
  CGC_CPF : string;
  CODCID : string;
  ATIVO : string;
  TIPPESSOA : string;
  CODVEND : option Z;
  RAZAOSOCIAL : option string;
  IDENTINSCESTAD : option string;
  CEP : option string;
  CODEND : option string;
  NUMEND : option string;
  COMPLEMENTO : option string;
  CODBAI : option string;
  LATITUDE : option string;
  LONGITUDE : option string
}.

(** JSON values of the payload. *)
Inductive JVal := JStr (s : string) | JNum (n : Z) | JNull.

(** [x || ""] for an optional string. *)
Definition or_empty (x : option string) : JVal :=
  match x with Some s => JStr s | None => JStr EmptyString end.

(** [parceiro.CODVEND || null] ([0] is falsy). *)
Definition codvend_or_null (x : option Z) : JVal :=
  match x with Some n => if (n =? 0)%Z then JNull else JNum n | None => JNull end.

(** The body shared by [UPDATE_PAYLOAD] and [CREATE_PAYLOAD]. *)
Record Payload := mkPayload {
  serviceName : string;
  entityName : string;
  standAlone : bool;
  fields : list string;
  pk : option (string * string);   (* [records[0].pk] *)
  values : list (string * JVal)    (* [records[0].values] *)
}.

Definition campos : list string :=
  ["CODPARC"; "NOMEPARC"; "ATIVO"; "TIPPESSOA"; "CGC_CPF"; "CODCID"; "CODVEND";
   "RAZAOSOCIAL"; "IDENTINSCESTAD"; "CEP"; "CODEND"; "NUMEND"; "COMPLEMENTO";
   "CODBAI"; "LATITUDE"; "LONGITUDE"].

Definition valores (p : Parceiro) : list (string * JVal) :=
  [("1", JStr (NOMEPARC p)); ("2", JStr (ATIVO p)); ("3", JStr (TIPPESSOA p));
   ("4", JStr (CGC_CPF p)); ("5", JStr (CODCID p)); ("6", codvend_or_null (CODVEND p));
   ("7", or_empty (RAZAOSOCIAL p)); ("8", or_empty (IDENTINSCESTAD p));
   ("9", or_empty (CEP p)); ("10", or_empty (CODEND p)); ("11", or_empty (NUMEND p));
   ("12", or_empty (COMPLEMENTO p)); ("13", or_empty (CODBAI p));
   ("14", or_empty (LATITUDE p)); ("15", or_empty (LONGITUDE p))].

Definition URL_SAVE : string :=
  "https://api.sandbox.sankhya.com.br/gateway/v1/mge/service.sbr?serviceName=DatasetSP.save&outputType=json".

(** [if (parceiro.CODPARC)]: a non-empty code means an update. *)
Definition codparc_truthy (p : Parceiro) : option string :=
  match CODPARC p with
  | Some c => if String.eqb c EmptyString then None else Some c
  | None => None
  end.

Definition payload (p : Parceiro) : Payload :=
  match codparc_truthy p with
  | Some c => mkPayload "DatasetSP.save" "Parceiro" false campos (Some ("CODPARC", c)) (valores p)
  | None => mkPayload "DatasetSP.save" "Parceiro" false campos None (valores p)
  end.

(** The effects [salvarParceiro] has besides logging. *)
Inductive Efeito :=
| Requisicao (url : string) (corpo : Payload)   (* [fazerRequisicaoAutenticada] *)
| InvalidarParceiros.                           (* [cacheService.invalidateParceiros()] *)

(** [salvarParceiro]; [resposta] is what [fazerRequisicaoAutenticada]
    gives for the payload: its data or the error it throws. *)
Definition salvarParceiro (p : Parceiro) (resposta : Payload -> string + string)
    : list Efeito * (string + string) :=
  let corpo := payload p in
  match resposta corpo with
  | inl dados => ([Requisicao URL_SAVE corpo; InvalidarParceiros], inl dados)
  | inr erro => ([Requisicao URL_SAVE corpo], inr erro)
  end.

End SalvarParceiro.

Module SalvarParceiroFacts.
Import SalvarParceiro.
Local Open Scope string_scope.

(** The value a field name stands for, read from the partner with the
    defaults of the payload. *)
Definition campo (p : Parceiro) (nome : string) : option JVal :=
  if String.eqb nome "NOMEPARC" then Some (JStr (NOMEPARC p))
  else if String.eqb nome "ATIVO" then Some (JStr (ATIVO p))
  else if String.eqb nome "TIPPESSOA" then Some (JStr (TIPPESSOA p))
  else if String.eqb nome "CGC_CPF" then Some (JStr (CGC_CPF p))
  else if String.eqb nome "CODCID" then Some (JStr (CODCID p))
  else if String.eqb nome "CODVEND" then Some (codvend_or_null (CODVEND p))
  else if String.eqb nome "RAZAOSOCIAL" then Some (or_empty (RAZAOSOCIAL p))
  else if String.eqb nome "IDENTINSCESTAD" then Some (or_empty (IDENTINSCESTAD p))
  else if String.eqb nome "CEP" then Some (or_empty (CEP p))
  else if String.eqb nome "CODEND" then Some (or_empty (CODEND p))
  else if String.eqb nome "NUMEND" then Some (or_empty (NUMEND p))
  else if String.eqb nome "COMPLEMENTO" then Some (or_empty (COMPLEMENTO p))
  else if String.eqb nome "CODBAI" then Some (or_empty (CODBAI p))
  else if String.eqb nome "LATITUDE" then Some (or_empty (LATITUDE p))
  else if String.eqb nome "LONGITUDE" then Some (or_empty (LONGITUDE p))
  else None.

Fixpoint assoc (k : string) (l : list (string * JVal)) : option JVal :=
  match l with
  | [] => None
  | (k', v) :: r => if String.eqb k k' then Some v else assoc k r
  end.

(** ** Field names and values line up
    In both the update and the create payload of [salvarParceiro], the
    value under key [i] (1 to 15) is the partner's field named by the
    [i]-th entry of [fields]; the key [0] ([CODPARC]) carries no value. *)
Theorem salvar_fields_aligned (p : Parceiro) (i : nat) :
  (1 <= i <= 15)%nat ->
  exists nome, fields (payload p) !! i = Some nome /\
    assoc (pretty (N.of_nat i)) (values (payload p)) = campo p nome /\
    campo p nome <> None.
Proof.
  intros Hi.
  assert (E : values (payload p) = valores p /\ fields (payload p) = campos).
  { unfold payload. destruct (codparc_truthy p); split; reflexivity. }
  destruct E as [-> ->].
  do 16 (destruct i as [|i]; [first [lia | eexists; split; [reflexivity|]; split; [reflexivity|discriminate]]|]).
  lia.
Qed.

Lemma salvar_fields_aligned_witness :
  ((1 <= 9)%nat /\ (9 <= 15)%nat) /\
  assoc "9" (values (payload (mkParceiro (Some "42") "ANA" "123" "10" "S" "F" (Some 0%Z)
     None None (Some "01000-000") None None None None None None))) = Some (JStr "01000-000").
Proof.
  split; [lia|].
  destruct (salvar_fields_aligned (mkParceiro (Some "42") "ANA" "123" "10" "S" "F" (Some 0%Z)
     None None (Some "01000-000") None None None None None None) 9 ltac:(lia))
    as (nome & Hn & Hv & _).
  vm_compute in Hn. injection Hn as <-. exact Hv.
Defined.

(** ** Only a successful save invalidates the partner cache
    [salvarParceiro] sends exactly one save request, with a key [pk] for
    [CODPARC] when the partner has a non-empty code and none otherwise.
    The partner cache is invalidated only after the request succeeds; a
    failed request leaves the cache as it is and the error is rethrown. *)
Theorem salvar_invalidates_only_on_success (p : Parceiro) (resposta : Payload -> string + string) :
  let r := salvarParceiro p resposta in
  pk (payload p) = option_map (fun c => ("CODPARC", c)) (codparc_truthy p) /\
  (forall dados, resposta (payload p) = inl dados ->
     r = ([Requisicao URL_SAVE (payload p); InvalidarParceiros], inl dados)) /\
  (forall erro, resposta (payload p) = inr erro ->
     r = ([Requisicao URL_SAVE (payload p)], inr erro)).
Proof.
  cbv zeta. split.
  - unfold payload. destruct (codparc_truthy p); reflexivity.
  - split; intros x Hx; unfold salvarParceiro; rewrite Hx; reflexivity.
Qed.

Lemma salvar_invalidates_only_on_success_witness :
  salvarParceiro (mkParceiro None "ANA" "123" "10" "S" "F" None
     None None None None None None None None None) (fun _ => inr "Erro HTTP 500") =
  ([Requisicao URL_SAVE (payload (mkParceiro None "ANA" "123" "10" "S" "F" None
     None None None None None None None None None))], inr "Erro HTTP 500").
Proof.
  exact (proj2 (proj2 (salvar_invalidates_only_on_success
    (mkParceiro None "ANA" "123" "10" "S" "F" None None None None None None None None None None)
    (fun _ => inr "Erro HTTP 500"))) "Erro HTTP 500" eq_refl).
Defined.

End SalvarParceiroFacts.
